(** * Run monitor (server.py): log ingestion and diff engine

    A shallow embedding of [parse_logs] and of the [/diff] branch of
    [SimpleHTTPRequestHandler.do_GET], with the pattern [LOG_LINE_REGEX]
    interpreted by a backtracking matcher.

    Conventions of the embedding.
    - A character of a Python [str] is an [ascii]: code points 0..255.  The
      classes [\d], [\w] and [str.isspace] are given on that range.
    - A Python [float] is the rational it denotes ([Q]); rounding to a double
      is not modelled.  A Python [int] is a [Z]; [int] keeps its limit on the
      length of the text it converts.
    - [os.listdir], [os.path.getmtime] and [readlines] are what a [file]
      records; [strftime], [difflib.unified_diff] and the page [HTML_CONTENT]
      are parameters.
    - An exception is a value of [result]; [Raise] propagates through every
      caller, as nothing in server.py catches one. *)

From Stdlib Require Import Ascii String QArith.
From stdpp Require Import gmap strings list fin_maps sorting.

Open Scope string_scope.

(** ** Text helpers *)

Definition NL : string := String "010"%char "".

Definition code_point (c : ascii) : N := N_of_ascii c.

Definition in_range (lo hi : N) (c : ascii) : bool :=
  ((lo <=? code_point c) && (code_point c <=? hi))%N.

(** [\d] on code points below 256: the ten ASCII digits. *)
Definition is_digit (c : ascii) : bool := in_range 48 57 c.

(** [\w] on code points below 256: [str.isalnum] or the underscore. *)
Definition is_word (c : ascii) : bool :=
  in_range 48 57 c || in_range 65 90 c || in_range 97 122 c
  || (code_point c =? 95)%N
  || (code_point c =? 170)%N || in_range 178 179 c || (code_point c =? 181)%N
  || in_range 185 186 c || in_range 188 190 c
  || in_range 192 214 c || in_range 216 246 c || in_range 248 255 c.

Definition is_dot (c : ascii) : bool := (code_point c =? 46)%N.

(** The class [[\d\.]]. *)
Definition is_digit_dot (c : ascii) : bool := is_digit c || is_dot c.

(** The class [[\d\.n]]. *)
Definition is_digit_dot_n (c : ascii) : bool :=
  is_digit_dot c || (code_point c =? 110)%N.

(** [str.isspace] on code points below 256. *)
Definition is_space (c : ascii) : bool :=
  in_range 9 13 c || in_range 28 32 c
  || (code_point c =? 133)%N || (code_point c =? 160)%N.

Fixpoint lstrip (s : string) : string :=
  match s with
  | String c s' => if is_space c then lstrip s' else s
  | EmptyString => EmptyString
  end.

Fixpoint rstrip (s : string) : string :=
  match s with
  | EmptyString => EmptyString
  | String c s' =>
      match rstrip s' with
      | EmptyString => if is_space c then EmptyString else String c EmptyString
      | t => String c t
      end
  end.

(** [str.strip()] *)
Definition strip (s : string) : string := rstrip (lstrip s).

(** [s * n] *)
Fixpoint str_mul (s : string) (n : nat) : string :=
  match n with
  | O => EmptyString
  | S n' => s +:+ str_mul s n'
  end.

(** [''.join(ls)] *)
Definition join (ls : list string) : string := String.concat "" ls.

(** [s.endswith(suffix)] *)
Definition endswith (s suffix : string) : bool :=
  Nat.leb (String.length suffix) (String.length s)
  && String.eqb
       (substring (String.length s - String.length suffix) (String.length suffix) s)
       suffix.

(** [s[:-n]] for [n > 0] *)
Definition drop_last (n : nat) (s : string) : string :=
  substring 0 (String.length s - n) s.

(** Line boundaries of [str.splitlines] on code points below 256. *)
Definition is_linebreak (c : ascii) : bool :=
  in_range 10 13 c || in_range 28 30 c || (code_point c =? 133)%N.

(** [s.splitlines(keepends=True)]: [cur] is the line being read. *)
Fixpoint splitlines_from (cur : string) (s : string) : list string :=
  match s with
  | EmptyString =>
      match cur with EmptyString => [] | _ => [cur] end
  | String c s' =>
      if is_linebreak c then
        match s' with
        | String c' s'' =>
            if (code_point c =? 13)%N && (code_point c' =? 10)%N then
              (cur +:+ String c (String c' "")) :: splitlines_from "" s''
            else (cur +:+ String c "") :: splitlines_from "" s'
        | EmptyString => [cur +:+ String c ""]
        end
      else splitlines_from (cur +:+ String c "") s'
  end.

Definition splitlines (s : string) : list string := splitlines_from "" s.

(** ** Exceptions *)

Inductive exn : Type := ValueError | IndexError.

Inductive result (A : Type) : Type :=
| Ok (a : A)
| Raise (e : exn).
Arguments Ok {A} a.
Arguments Raise {A} e.

Definition bind {A B : Type} (m : result A) (f : A -> result B) : result B :=
  match m with
  | Ok a => f a
  | Raise e => Raise e
  end.

Notation "'let*' x ':=' m 'in' k" := (bind m (fun x => k))
  (at level 10, x name, m at level 100, k at level 200).

(** ** The regular expression engine

    [re]'s matcher is a backtracking one: a greedy repetition takes as much
    as it can and gives characters back, one at a time, while what follows
    fails.  [rmatch] is written in continuation style: [k taken rest g] is
    what follows, given the text just matched, the text left and the groups
    captured so far; [None] makes the matcher backtrack. *)

Inductive regex : Type :=
| Lit (l : string)
| Plus (c : ascii -> bool)
| Group (i : nat) (r : regex)
| Seq (r1 r2 : regex)
| Star (r : regex).

Definition groups : Type := list (nat * string).

(** [match.group(i)]: the last capture of group [i]. *)
Fixpoint group (g : groups) (i : nat) : option string :=
  match g with
  | [] => None
  | (j, s) :: g' => if Nat.eqb i j then Some s else group g' i
  end.

Fixpoint strip_prefix (l s : string) : option string :=
  match l, s with
  | EmptyString, _ => Some s
  | String a l', String b s' => if Ascii.eqb a b then strip_prefix l' s' else None
  | String _ _, EmptyString => None
  end.

Fixpoint greedy_more {R : Type} (c : ascii -> bool) (taken rest : string)
    (k : string -> string -> option R) : option R :=
  match rest with
  | String a rest' =>
      if c a then
        match greedy_more c (taken +:+ String a "") rest' k with
        | Some r => Some r
        | None => k taken rest
        end
      else k taken rest
  | EmptyString => k taken rest
  end.

Definition greedy_plus {R : Type} (c : ascii -> bool) (s : string)
    (k : string -> string -> option R) : option R :=
  match s with
  | String a s' => if c a then greedy_more c (String a "") s' k else None
  | EmptyString => None
  end.

(** A greedy [( ... )*]: one more iteration is tried before what follows.
    [n] bounds the iterations; an iteration that takes at least one character
    cannot exhaust [n = length s]. *)
Fixpoint star_loop {R : Type}
    (body : string -> groups -> (string -> string -> groups -> option R) -> option R)
    (n : nat) (taken s : string) (g : groups)
    (k : string -> string -> groups -> option R) : option R :=
  match n with
  | O => k taken s g
  | S n' =>
      match body s g (fun m s' g' => star_loop body n' (taken +:+ m) s' g' k) with
      | Some res => Some res
      | None => k taken s g
      end
  end.

Fixpoint rmatch {R : Type} (r : regex) (s : string) (g : groups)
    (k : string -> string -> groups -> option R) : option R :=
  match r with
  | Lit l =>
      match strip_prefix l s with
      | Some s' => k l s' g
      | None => None
      end
  | Plus c => greedy_plus c s (fun m s' => k m s' g)
  | Group i r' => rmatch r' s g (fun m s' g' => k m s' ((i, m) :: g'))
  | Seq r1 r2 =>
      rmatch r1 s g (fun m1 s1 g1 =>
        rmatch r2 s1 g1 (fun m2 s2 g2 => k (m1 +:+ m2) s2 g2))
  | Star r' => star_loop (rmatch r') (String.length s) "" s g k
  end.

(** [pattern.match(s)]: anchored at the start of [s], not at its end. *)
Definition re_match (r : regex) (s : string) : option groups :=
  rmatch r s [] (fun _ _ g => Some g).

Declare Scope regex_scope.
Delimit Scope regex_scope with re.
Infix ";;;" := Seq (at level 62, right associativity) : regex_scope.

(** [r'step:(\d+)/(\d+) (\w+):([\d\.]+)(?: [\w_]+:[\d\.]+)* train_time:([\d\.]+)ms step_avg:([\d\.n]+)ms'] *)
Definition LOG_LINE_REGEX : regex :=
  (Lit "step:" ;;; Group 1 (Plus is_digit) ;;; Lit "/" ;;; Group 2 (Plus is_digit)
   ;;; Lit " " ;;; Group 3 (Plus is_word) ;;; Lit ":" ;;; Group 4 (Plus is_digit_dot)
   ;;; Star (Lit " " ;;; Plus is_word ;;; Lit ":" ;;; Plus is_digit_dot)
   ;;; Lit " train_time:" ;;; Group 5 (Plus is_digit_dot)
   ;;; Lit "ms step_avg:" ;;; Group 6 (Plus is_digit_dot_n) ;;; Lit "ms")%re.

(** The repeated part of the pattern: [ [\w_]+:[\d\.]+]. *)
Abbreviation extra_token :=
  (Lit " " ;;; Plus is_word ;;; Lit ":" ;;; Plus is_digit_dot)%re.

(** ** Number conversions

    [int] and [float] are only ever applied to a captured group, that is to
    a text over the digits, ['.'] and ['n'].  On such texts [int] accepts
    exactly the non-empty digit strings within its length limit, and
    [float] exactly the digit strings with at most one ['.'] and at least
    one digit: every other spelling they accept (a sign, an exponent, an
    underscore, blanks, [inf], [nan]) needs a character outside these
    classes. *)

Definition digit_value (c : ascii) : Z := Z.of_N (code_point c) - 48.

Fixpoint digits_value (acc : Z) (s : string) : option Z :=
  match s with
  | EmptyString => Some acc
  | String c s' =>
      if is_digit c then digits_value (10 * acc + digit_value c) s' else None
  end.

(** [sys.get_int_max_str_digits()], as the interpreter sets it: [int]
    refuses a longer text with [ValueError]. *)
Definition int_max_str_digits : nat := 4300.

Definition py_int (s : string) : result Z :=
  match s with
  | EmptyString => Raise ValueError
  | _ =>
      if Nat.ltb int_max_str_digits (String.length s) then Raise ValueError
      else match digits_value 0 s with
           | Some n => Ok n
           | None => Raise ValueError
           end
  end.

(** The text before the first ['.'], and the text after it if there is one. *)
Fixpoint split_dot (s : string) : string * option string :=
  match s with
  | EmptyString => (EmptyString, None)
  | String c s' =>
      if is_dot c then (EmptyString, Some s')
      else let (a, b) := split_dot s' in (String c a, b)
  end.

Definition py_float (s : string) : result Q :=
  let (ip, fp) := split_dot s in
  let fp := default "" fp in
  match digits_value 0 (ip +:+ fp) with
  | Some n =>
      match ip +:+ fp with
      | EmptyString => Raise ValueError
      | _ => Ok (Qmake n (Z.to_pos (10 ^ Z.of_nat (String.length fp))))
      end
  | None => Raise ValueError
  end.

(** ** Samples and runs *)

Record MetricSample : Type := {
  step : Z;
  metric_name : string;
  metric_value : Q;
  train_time : Q;
  step_avg : option Q
}.

Record Run : Type := {
  run_id : string;
  timestamp : string;
  mtime : Q;
  code : string;
  data : list MetricSample
}.

(** [match.group(i)]; each of the six groups of [LOG_LINE_REGEX] takes part
    in every match, so the default is never used. *)
Definition match_group (m : groups) (i : nat) : string :=
  match group m i with
  | Some s => s
  | None => ""
  end.

(** Lines 44-62: the body of the loop for a line of the metrics region.
    [Ok None] is the line that does not match. *)
Definition parse_metric (line : string) : result (option MetricSample) :=
  match re_match LOG_LINE_REGEX (strip line) with
  | None => Ok None
  | Some m =>
      let* step := py_int (match_group m 1) in
      let* total_steps := py_int (match_group m 2) in
      let metric_name := match_group m 3 in
      let* metric_value := py_float (match_group m 4) in
      let* train_time := py_float (match_group m 5) in
      let step_avg := match_group m 6 in
      let* step_avg :=
        if String.eqb step_avg "nan" then Ok None
        else (let* v := py_float step_avg in Ok (Some v)) in
      Ok (Some {| step := step; metric_name := metric_name;
                  metric_value := metric_value; train_time := train_time;
                  step_avg := step_avg |})
  end.

(** [line.strip() == '=' * 100] *)
Definition is_sentinel (line : string) : bool :=
  String.eqb (strip line) (str_mul "=" 100).

(** Lines 35-62: the loop over the lines, with its three variables. *)
Fixpoint scan_lines (lines : list string) (in_code : bool)
    (code_lines : list string) (data : list MetricSample)
    : result (list string * list MetricSample) :=
  match lines with
  | [] => Ok (code_lines, data)
  | line :: rest =>
      if is_sentinel line then scan_lines rest (negb in_code) code_lines data
      else if in_code then scan_lines rest in_code (code_lines ++ [line]) data
      else
        let* parsed := parse_metric line in
        match parsed with
        | Some d => scan_lines rest in_code code_lines (data ++ [d])
        | None => scan_lines rest in_code code_lines data
        end
  end.

(** The code and the samples of one file, from its lines ([f.readlines()]). *)
Definition extract (lines : list string) : result (string * list MetricSample) :=
  let* scanned := scan_lines lines false [] [] in
  Ok (join (fst scanned), snd scanned).

(** A file of [LOG_DIR]: its name, [os.path.getmtime] and [readlines()],
    each line with its terminator. *)
Record file : Type := {
  filename : string;
  file_mtime : Q;
  file_lines : list string
}.

(** [runs.sort(key=lambda x: x['mtime'], reverse=True)]: a stable sort. *)
Fixpoint insert_run (r : Run) (rs : list Run) : list Run :=
  match rs with
  | [] => [r]
  | r' :: rs' =>
      if Qle_bool (mtime r') (mtime r) then r :: rs else r' :: insert_run r rs'
  end.

Definition sort_runs (rs : list Run) : list Run := foldr insert_run [] rs.

(** ** The server *)

Inductive body : Type :=
| Text (s : string)
| Json (summary : list (string * string * list MetricSample)).

(** What a request is answered with: [send_response] with its header and
    body, [send_error], or an exception that leaves the handler. *)
Inductive response : Type :=
| Respond (status : nat) (content_type : string) (b : body)
| SendError (status : nat) (message : string)
| Uncaught (e : exn).

(** A request: [self.path], [urlparse(self.path).path] and
    [parse_qs(urlparse(self.path).query)].  [parse_qs] gives each name it
    has found the list of its values, which is never empty: the first value
    and the others. *)
Record request : Type := {
  raw_path : string;
  path : string;
  query : gmap string (string * list string)
}.

(** [query.get(name, [None])[0]]: the first value of [name], [None] without
    one. *)
Definition query_first (req : request) (name : string) : option string :=
  fst <$> query req !! name.

(** [l[i]] for [i >= 0] *)
Definition get_item {A : Type} (l : list A) (i : nat) : result A :=
  match l !! i with
  | Some x => Ok x
  | None => Raise IndexError
  end.

(** [l[-1]] *)
Definition last_item {A : Type} (l : list A) : result A :=
  match last l with
  | Some x => Ok x
  | None => Raise IndexError
  end.

(** [next((i for i, run in enumerate(runs) if run['run_id'] == run_id), None)],
    counting from [i]. *)
Fixpoint find_index (runs : list Run) (rid : string) (i : nat) : option nat :=
  match runs with
  | [] => None
  | r :: rest => if String.eqb (run_id r) rid then Some i else find_index rest rid (S i)
  end.

(** The truth value of [run_id], a [str] or [None]. *)
Definition truthy (v : option string) : bool :=
  match v with
  | Some (String _ _) => true
  | _ => false
  end.

Section Server.

(** [datetime.fromtimestamp(mtime).strftime('%Y-%m-%d %H:%M:%S')] *)
Variable strftime : Q -> string.

(** [difflib.unified_diff(a, b, fromfile=..., tofile=...)] *)
Variable unified_diff : list string -> list string -> string -> string -> list string.

(** The page served at [/]. *)
Variable HTML_CONTENT : string.

(** Lines 25-70: the run of one file. *)
Definition run_of_file (f : file) : result Run :=
  let* extracted := extract (file_lines f) in
  Ok {| run_id := drop_last 4 (filename f);
        timestamp := strftime (file_mtime f);
        mtime := file_mtime f;
        code := fst extracted;
        data := snd extracted |}.

(** Lines 23-70: the loop over [os.listdir(LOG_DIR)]. *)
Fixpoint collect_runs (files : list file) (runs : list Run) : result (list Run) :=
  match files with
  | [] => Ok runs
  | f :: rest =>
      if endswith (filename f) ".txt" then
        let* r := run_of_file f in collect_runs rest (runs ++ [r])
      else collect_runs rest runs
  end.

Definition parse_logs (files : list file) : result (list Run) :=
  let* runs := collect_runs files [] in
  Ok (sort_runs runs).

(** Lines 109-118: the lines of the baseline and its label. *)
Definition baseline (runs : list Run) (index : nat) (compare_to : string)
    : result (list string * string) :=
  if String.eqb compare_to "previous" && Nat.ltb (index + 1) (length runs) then
    let* prev := get_item runs (index + 1) in
    Ok (splitlines (code prev), "Previous Run")
  else if String.eqb compare_to "first" && Nat.ltb 0 (length runs) then
    let* prev := last_item runs in
    Ok (splitlines (code prev), "First Run")
  else Ok ([], "No Run to Compare").

(** Lines 119-125: the text, before the header is put in front of it. *)
Definition diff_body (prev_code current_code : list string) (compare_label : string)
    : string :=
  match prev_code with
  | _ :: _ =>
      let diff_text := join (unified_diff prev_code current_code compare_label "Selected Run") in
      match diff_text with
      | EmptyString => "No differences found."
      | _ => diff_text
      end
  | [] => "No run available to compare."
  end.

(** Lines 109-127: the text computed when the memo has no entry. *)
Definition compute_diff (runs : list Run) (index : nat) (compare_to : string)
    : result string :=
  let* selected := get_item runs index in
  let current_code := splitlines (code selected) in
  let* base := baseline runs index compare_to in
  let diff_text := diff_body (fst base) current_code (snd base) in
  Ok ("Comparing Run " +:+ run_id selected +:+ " to " +:+ snd base
      +:+ NL +:+ NL +:+ diff_text).

(** Lines 97-137: the [/diff] branch. *)
Definition serve_diff (files : list file) (diff_cache : gmap (string * string) string)
    (req : request) : response * gmap (string * string) string :=
  let rid_opt := query_first req "run_id" in
  let compare_to := default "previous" (query_first req "compare_to") in
  if truthy rid_opt then
    let rid := default "" rid_opt in
    match parse_logs files with
    | Raise e => (Uncaught e, diff_cache)
    | Ok runs =>
        match find_index runs rid 0 with
        | Some index =>
            let cache_key := (rid, compare_to) in
            match diff_cache !! cache_key with
            | Some diff_text =>
                (Respond 200 "text/plain" (Text diff_text), diff_cache)
            | None =>
                match compute_diff runs index compare_to with
                | Raise e => (Uncaught e, diff_cache)
                | Ok diff_text =>
                    (Respond 200 "text/plain" (Text diff_text),
                     <[cache_key := diff_text]> diff_cache)
                end
            end
        | None => (Respond 200 "text/plain" (Text "Run ID not found."), diff_cache)
        end
    end
  else (SendError 400 "Bad Request: run_id parameter is missing.", diff_cache).

(** Lines 86-90: [/data] sends the runs without [mtime] and [code]. *)
Definition summary (r : Run) : string * string * list MetricSample :=
  (run_id r, timestamp r, data r).

(** [do_GET], with the files of [LOG_DIR] and the memo [diff_cache] as
    they are when the request arrives; the memo is returned as the request
    leaves it. *)
Definition do_GET (files : list file) (diff_cache : gmap (string * string) string)
    (req : request) : response * gmap (string * string) string :=
  if String.eqb (path req) "/" then
    (Respond 200 "text/html" (Text HTML_CONTENT), diff_cache)
  else if String.eqb (path req) "/data" then
    match parse_logs files with
    | Raise e => (Uncaught e, diff_cache)
    | Ok runs => (Respond 200 "application/json" (Json (map summary runs)), diff_cache)
    end
  else if String.eqb (path req) "/diff" then serve_diff files diff_cache req
  else (SendError 404 ("File Not Found: " +:+ raw_path req), diff_cache).

(** A sequence of requests, each with the files of [LOG_DIR] as they are
    when it arrives; the memo lives as long as the process. *)
Fixpoint serve_all (steps : list (list file * request))
    (diff_cache : gmap (string * string) string)
    : list response * gmap (string * string) string :=
  match steps with
  | [] => ([], diff_cache)
  | (files, req) :: rest =>
      let (resp, diff_cache') := do_GET files diff_cache req in
      let (resps, final) := serve_all rest diff_cache' in
      (resp :: resps, final)
  end.

(** The request asks [/diff] for the run [rid] against [compare_to], the
    scan of [files] gives [runs], and [rid] is found there at [index]:
    the handler gets as far as the memo. *)
Definition reaches_memo (files : list file) (req : request)
    (rid compare_to : string) (runs : list Run) (index : nat) : Prop :=
  path req = "/diff"
  /\ query_first req "run_id" = Some rid /\ rid <> ""
  /\ default "previous" (query_first req "compare_to") = compare_to
  /\ parse_logs files = Ok runs
  /\ find_index runs rid 0 = Some index.

End Server.

(** The header line and the blank line after it. *)
Definition header (rid compare_label : string) : string :=
  "Comparing Run " +:+ rid +:+ " to " +:+ compare_label +:+ NL +:+ NL.

(** ** What the statements below are phrased with *)

Fixpoint string_forall (p : ascii -> bool) (s : string) : bool :=
  match s with
  | EmptyString => true
  | String c s' => p c && string_forall p s'
  end.

(** [s] does not begin with a character of the class [p]. *)
Definition stops (p : ascii -> bool) (s : string) : bool :=
  match s with
  | EmptyString => true
  | String c _ => negb (p c)
  end.

(** The language of a pattern, with the groups it captures: [matches r m g g']
    says that [r] matches exactly the text [m] and turns the captures [g]
    into [g']. *)
Inductive matches : regex -> string -> groups -> groups -> Prop :=
| matches_Lit l g : matches (Lit l) l g g
| matches_Plus c m g :
    m <> "" -> string_forall c m = true -> matches (Plus c) m g g
| matches_Group i r m g g' :
    matches r m g g' -> matches (Group i r) m g ((i, m) :: g')
| matches_Seq r1 r2 m1 m2 g g1 g2 :
    matches r1 m1 g g1 -> matches r2 m2 g1 g2 ->
    matches (Seq r1 r2) (m1 +:+ m2) g g2
| matches_Star_nil r g : matches (Star r) "" g g
| matches_Star_cons r m1 m2 g g1 g2 :
    matches r m1 g g1 -> matches (Star r) m2 g1 g2 ->
    matches (Star r) (m1 +:+ m2) g g2.

Fixpoint count_char (p : ascii -> bool) (s : string) : nat :=
  match s with
  | EmptyString => 0
  | String c s' => (if p c then 1 else 0) + count_char p s'
  end.

(** A decimal numeral: digits, at least one, with at most one ['.'] among
    them. *)
Definition is_decimal (s : string) : bool :=
  string_forall is_digit_dot s
  && Nat.leb (count_char is_dot s) 1
  && Nat.ltb 0 (count_char is_digit s).

(** A non-empty text of the class [p]: what [p+] matches. *)
Definition class_text (p : ascii -> bool) (s : string) : bool :=
  string_forall p s && negb (String.eqb s "").

(** The pattern has no capturing group. *)
Fixpoint group_free (r : regex) : bool :=
  match r with
  | Lit _ | Plus _ => true
  | Group _ _ => false
  | Seq r1 r2 => group_free r1 && group_free r2
  | Star r' => group_free r'
  end.

(** The additional [name:value] tokens of a line, as text. *)
Fixpoint extras_text (extras : list (string * string)) : string :=
  match extras with
  | [] => ""
  | (name, value) :: rest => " " +:+ name +:+ ":" +:+ value +:+ extras_text rest
  end.

(** An additional token: a name of [[\w_]+] and a value of [[\d\.]+]. *)
Definition extra_ok (e : string * string) : bool :=
  class_text is_word (fst e) && class_text is_digit_dot (snd e).

(** A line of the grammar
    [step:<int>/<int> <token>:<float> [<token>:<float> ...] train_time:<float>ms step_avg:<...>ms]. *)
Definition metric_line (s1 s2 name value : string) (extras : list (string * string))
    (t a : string) : string :=
  "step:" +:+ s1 +:+ "/" +:+ s2 +:+ " " +:+ name +:+ ":" +:+ value
  +:+ extras_text extras +:+ " train_time:" +:+ t +:+ "ms step_avg:" +:+ a +:+ "ms".

(** The sample of a line, if the line gives one. *)
Definition sample_of (line : string) : option MetricSample :=
  match parse_metric line with
  | Ok (Some d) => Some d
  | _ => None
  end.

(** The line matches the pattern and a conversion of a group raises. *)
Definition raises (line : string) : bool :=
  match parse_metric line with
  | Raise _ => true
  | Ok _ => false
  end.

Definition sentinel_count (lines : list string) : nat :=
  length (filter (fun l => is_sentinel l = true) lines).

(** The lines cut at the sentinel lines: the block before the first
    sentinel, the block between the first and the second, and so on. *)
Fixpoint blocks (lines : list string) : list (list string) :=
  match lines with
  | [] => [[]]
  | l :: rest =>
      if is_sentinel l then [] :: blocks rest
      else match blocks rest with
           | b :: bs => (l :: b) :: bs
           | [] => [[l]]
           end
  end.

(** The blocks strictly between a sentinel and the next one that closes it:
    the second block if a third one follows, and so on two by two. *)
Fixpoint paired_blocks (bs : list (list string)) : list (list string) :=
  match bs with
  | _ :: inside :: ((_ :: _) as rest) => inside :: paired_blocks rest
  | _ => []
  end.

(** The blocks outside the pairs: the first, the third, and so on. *)
Fixpoint outside_blocks (bs : list (list string)) : list (list string) :=
  match bs with
  | outside :: rest =>
      outside :: match rest with
                 | _ :: rest' => outside_blocks rest'
                 | [] => []
                 end
  | [] => []
  end.

(** [a] may stand before [b] in a list sorted by modification time,
    most recent first. *)
Definition not_older (a b : Run) : Prop := (mtime b <= mtime a)%Q.

(** ** A log directory and requests, for the examples

    [run_a] is the older run and embeds no code; [run_b] is the newer one
    and embeds one line of code; [README.md] is not a log. *)

Definition sentinel_line : string := str_mul "=" 100 +:+ NL.

Definition example_files : list file :=
  [ {| filename := "run_a.txt"; file_mtime := 100;
       file_lines :=
         [ "step:1/10 val_loss:2.5 train_time:100.0ms step_avg:50.0ms" +:+ NL ] |};
    {| filename := "README.md"; file_mtime := 300; file_lines := [ "notes" +:+ NL ] |};
    {| filename := "run_b.txt"; file_mtime := 200;
       file_lines :=
         [ sentinel_line; "print(1)" +:+ NL; sentinel_line;
           "step:1/10 val_loss:2.1 train_time:90.0ms step_avg:45.0ms" +:+ NL ] |} ].

(** [GET /diff?run_id=<rid>&compare_to=<compare_to>] *)
Definition diff_request (rid compare_to : string) : request :=
  {| raw_path := "/diff?run_id=" +:+ rid +:+ "&compare_to=" +:+ compare_to;
     path := "/diff";
     query := <["run_id" := (rid, [])]> {["compare_to" := (compare_to, [])]} |}.

(** [GET /diff] without parameters. *)
Definition bare_diff_request : request :=
  {| raw_path := "/diff"; path := "/diff"; query := ∅ |}.

(** A log whose metric line carries a number [float()] rejects. *)
Definition bad_file : file :=
  {| filename := "run_c.txt"; file_mtime := 50;
     file_lines :=
       [ "step:1/10 val_loss:1.2.3 train_time:5ms step_avg:1ms" +:+ NL ] |}.

(** [GET /data] *)
Definition data_request : request :=
  {| raw_path := "/data"; path := "/data"; query := ∅ |}.

(** ** The shape of the memo

    An entry of [diff_cache] as lines 127-129 write it: the key has a [run_id]
    that is not empty, and the text begins with the header of that run and
    of a label that fits the mode of the key. *)
Definition memo_entry_ok (k : string * string) (v : string) : Prop :=
  k.1 <> ""
  /\ exists label text,
       v = header k.1 label +:+ text
       /\ (label = "Previous Run" /\ k.2 = "previous"
           \/ label = "First Run" /\ k.2 = "first"
           \/ label = "No Run to Compare").

Definition memo_ok (diff_cache : gmap (string * string) string) : Prop :=
  map_Forall memo_entry_ok diff_cache.

(** A line as [readlines()] gives it when the text has no other line
    boundary of [str.splitlines] than its [\n]. *)
Definition plain_line (l : string) : Prop :=
  exists text,
    l = text +:+ NL /\ string_forall (fun c => negb (is_linebreak c)) text = true.

(** * Properties *)

(** ** Strings *)

#[local] Arguments String.append !s1 s2 : simpl nomatch.

Lemma append_assoc (a b c : string) : (a +:+ b) +:+ c = a +:+ (b +:+ c).
Proof. induction a as [|x a IH]; simpl; [reflexivity | now rewrite IH]. Qed.

Lemma append_nil_r (a : string) : a +:+ "" = a.
Proof. induction a as [|x a IH]; simpl; [reflexivity | now rewrite IH]. Qed.

Lemma append_eq_nil (a b : string) : a +:+ b = "" -> a = "" /\ b = "".
Proof. destruct a; simpl; [auto | discriminate]. Qed.

Lemma append_snoc (a : string) (x : ascii) (b : string) :
  (a +:+ String x "") +:+ b = a +:+ String x b.
Proof. now rewrite append_assoc. Qed.

Lemma string_forall_app (p : ascii -> bool) (a b : string) :
  string_forall p (a +:+ b) = string_forall p a && string_forall p b.
Proof.
  induction a as [|x a IH]; simpl; [reflexivity |].
  rewrite IH. now rewrite andb_assoc.
Qed.

Lemma strip_prefix_sound (l s s' : string) :
  strip_prefix l s = Some s' -> s = l +:+ s'.
Proof.
  revert s. induction l as [|a l IH]; intros s H; simpl in *.
  - congruence.
  - destruct s as [|b s]; [discriminate |].
    destruct (Ascii.eqb_spec a b) as [->|]; [| discriminate].
    f_equal. now apply IH.
Qed.

(** ** The matcher finds only matches of the pattern *)

Lemma greedy_more_sound {R : Type} (c : ascii -> bool) (k : string -> string -> option R)
    (rest taken : string) (res : R) :
  greedy_more c taken rest k = Some res ->
  exists m s', rest = m +:+ s' /\ string_forall c m = true
               /\ k (taken +:+ m) s' = Some res.
Proof.
  revert taken. induction rest as [|a rest IH]; intros taken H; simpl in H.
  - exists "", "". now rewrite !append_nil_r.
  - destruct (c a) eqn:Hc.
    + destruct (greedy_more c (taken +:+ String a "") rest k) eqn:Hg.
      * injection H as ->. apply IH in Hg as (m & s' & -> & Hm & Hk).
        exists (String a m), s'. simpl. rewrite Hc, Hm.
        now rewrite append_snoc in Hk.
      * exists "", (String a rest). now rewrite !append_nil_r.
    + exists "", (String a rest). now rewrite !append_nil_r.
Qed.

Lemma greedy_plus_sound {R : Type} (c : ascii -> bool) (k : string -> string -> option R)
    (s : string) (res : R) :
  greedy_plus c s k = Some res ->
  exists m s', s = m +:+ s' /\ m <> "" /\ string_forall c m = true
               /\ k m s' = Some res.
Proof.
  destruct s as [|a s]; simpl; [discriminate |].
  destruct (c a) eqn:Hc; [| discriminate].
  intros H. apply greedy_more_sound in H as (m & s' & -> & Hm & Hk).
  exists (String a m), s'. simpl. now rewrite Hc, Hm.
Qed.

Lemma star_loop_sound {R : Type} (r : regex)
    (body : string -> groups -> (string -> string -> groups -> option R) -> option R)
    (k : string -> string -> groups -> option R) :
  (forall s g k' res, body s g k' = Some res ->
     exists m s' g', s = m +:+ s' /\ matches r m g g' /\ k' m s' g' = Some res) ->
  forall n taken s g res,
    star_loop body n taken s g k = Some res ->
    exists m s' g', s = m +:+ s' /\ matches (Star r) m g g'
                    /\ k (taken +:+ m) s' g' = Some res.
Proof.
  intros Hbody. induction n as [|n IH]; intros taken s g res H; simpl in H.
  - exists "", s, g. rewrite !append_nil_r. auto using matches_Star_nil.
  - destruct (body s g _) eqn:Hb.
    + injection H as ->.
      apply Hbody in Hb as (m1 & s1 & g1 & -> & Hm1 & Hk1).
      apply IH in Hk1 as (m2 & s2 & g2 & -> & Hm2 & Hk2).
      exists (m1 +:+ m2), s2, g2. rewrite append_assoc.
      rewrite append_assoc in Hk2. eauto 8 using matches_Star_cons.
    + exists "", s, g. rewrite !append_nil_r. auto using matches_Star_nil.
Qed.

Lemma rmatch_sound {R : Type} (r : regex) :
  forall (s : string) (g : groups) (k : string -> string -> groups -> option R) (res : R),
    rmatch r s g k = Some res ->
    exists m s' g', s = m +:+ s' /\ matches r m g g' /\ k m s' g' = Some res.
Proof.
  induction r as [l | c | i r IH | r1 IH1 r2 IH2 | r IH]; intros s g k res H; simpl in H.
  - destruct (strip_prefix l s) as [s'|] eqn:Hp; [| discriminate].
    apply strip_prefix_sound in Hp. eauto 8 using matches_Lit.
  - apply greedy_plus_sound in H as (m & s' & -> & Hne & Hm & Hk).
    eauto 8 using matches_Plus.
  - apply IH in H as (m & s' & g' & -> & Hm & Hk).
    eauto 8 using matches_Group.
  - apply IH1 in H as (m1 & s1 & g1 & -> & Hm1 & Hk1).
    apply IH2 in Hk1 as (m2 & s2 & g2 & -> & Hm2 & Hk2).
    exists (m1 +:+ m2), s2, g2. rewrite append_assoc. eauto 8 using matches_Seq.
  - eapply star_loop_sound in H as (m & s' & g' & -> & Hm & Hk); [| exact IH].
    simpl in Hk. eauto 8.
Qed.

Lemma re_match_sound (r : regex) (s : string) (g : groups) :
  re_match r s = Some g -> exists m s', s = m +:+ s' /\ matches r m [] g.
Proof.
  intros H. apply rmatch_sound in H as (m & s' & g' & -> & Hm & Hk).
  injection Hk as ->. eauto 8.
Qed.

Lemma matches_group_free (r : regex) (m : string) (g g' : groups) :
  matches r m g g' -> group_free r = true -> g' = g.
Proof.
  induction 1 as [| | | r1 r2 m1 m2 g g1 g2 _ IH1 _ IH2 | | r m1 m2 g g1 g2 _ IH1 _ IH2];
    simpl; intros Hf; try reflexivity; try discriminate.
  - apply andb_prop in Hf as [Hf1 Hf2]. now rewrite IH2, IH1.
  - now rewrite IH2, IH1.
Qed.

Lemma class_text_intro (p : ascii -> bool) (s : string) :
  s <> "" -> string_forall p s = true -> class_text p s = true.
Proof.
  intros Hne Hs. unfold class_text. rewrite Hs. simpl.
  now destruct (String.eqb_spec s "").
Qed.

Lemma class_text_elim (p : ascii -> bool) (s : string) :
  class_text p s = true -> s <> "" /\ string_forall p s = true.
Proof.
  unfold class_text. intros H. apply andb_prop in H as [Hs Hne]. split; [| exact Hs].
  intros ->. discriminate.
Qed.

Ltac invert_matches :=
  repeat match goal with
    | H : matches (Seq _ _) _ _ _ |- _ => inversion H; subst; clear H
    | H : matches (Group _ _) _ _ _ |- _ => inversion H; subst; clear H
    | H : matches (Plus _) _ _ _ |- _ => inversion H; subst; clear H
    | H : matches (Lit _) _ _ _ |- _ => inversion H; subst; clear H
    | H : matches (Star _) _ _ _ |- _ =>
        apply matches_group_free in H; [subst | reflexivity]
    end.

(** The six groups of a match of [LOG_LINE_REGEX]. *)
Lemma log_line_groups (line : string) (g : groups) :
  re_match LOG_LINE_REGEX line = Some g ->
  exists s1 s2 name value t a,
    g = [(6, a); (5, t); (4, value); (3, name); (2, s2); (1, s1)]
    /\ class_text is_digit s1 = true /\ class_text is_digit s2 = true
    /\ class_text is_word name = true /\ class_text is_digit_dot value = true
    /\ class_text is_digit_dot t = true /\ class_text is_digit_dot_n a = true.
Proof.
  intros H. apply re_match_sound in H as (m & s' & _ & H).
  unfold LOG_LINE_REGEX in H. invert_matches.
  repeat eexists; eauto using class_text_intro.
Qed.

(** ** [int] and [float] on captured texts *)

Lemma digits_value_some (s : string) (acc : Z) :
  string_forall is_digit s = true -> exists n, digits_value acc s = Some n.
Proof.
  revert acc. induction s as [|c s IH]; intros acc H; simpl in *.
  - eauto.
  - apply andb_prop in H as [Hc Hs]. rewrite Hc. now apply IH.
Qed.

Lemma digits_value_digits (s : string) (acc n : Z) :
  digits_value acc s = Some n -> string_forall is_digit s = true.
Proof.
  revert acc. induction s as [|c s IH]; intros acc H; simpl in *; [reflexivity |].
  destruct (is_digit c); [| discriminate]. simpl. eauto.
Qed.

Lemma py_int_total (s : string) :
  class_text is_digit s = true ->
  Nat.leb (String.length s) int_max_str_digits = true ->
  exists n, py_int s = Ok n.
Proof.
  intros H Hlen. apply class_text_elim in H as [Hne Hs].
  destruct (digits_value_some s 0 Hs) as [n Hn].
  exists n. unfold py_int. rewrite Hn.
  apply Nat.leb_le in Hlen. apply Nat.nlt_ge, Nat.ltb_nlt in Hlen. rewrite Hlen.
  now destruct s.
Qed.

Lemma py_int_too_long (s : string) :
  Nat.leb (String.length s) int_max_str_digits = false ->
  py_int s = Raise ValueError.
Proof.
  intros Hlen. unfold py_int. apply Nat.leb_gt, Nat.ltb_lt in Hlen. rewrite Hlen.
  now destruct s.
Qed.

Lemma digit_not_dot (c : ascii) : is_digit c = true -> is_dot c = false.
Proof.
  unfold is_digit, is_dot, in_range. intros H.
  apply andb_prop in H as [H1 _]. apply N.leb_le in H1.
  apply N.eqb_neq. lia.
Qed.

Lemma digits_count (s : string) :
  string_forall is_digit s = true ->
  count_char is_digit s = String.length s /\ count_char is_dot s = 0.
Proof.
  induction s as [|c s IH]; simpl; [auto |].
  intros H. apply andb_prop in H as [Hc Hs].
  rewrite Hc, (digit_not_dot c Hc). destruct (IH Hs) as [-> ->]. auto.
Qed.

Lemma no_dot_digits (s : string) :
  count_char is_dot s = 0 -> string_forall is_digit_dot s = string_forall is_digit s.
Proof.
  induction s as [|c s IH]; simpl; [reflexivity |].
  unfold is_digit_dot at 1. destruct (is_dot c); simpl; [discriminate |].
  intros H. rewrite (IH H). now rewrite orb_false_r.
Qed.

Lemma count_char_app (p : ascii -> bool) (a b : string) :
  count_char p (a +:+ b) = count_char p a + count_char p b.
Proof. induction a as [|x a IH]; simpl; [reflexivity | rewrite IH; lia]. Qed.

Lemma length_append (a b : string) :
  String.length (a +:+ b) = String.length a + String.length b.
Proof. induction a as [|x a IH]; simpl; [reflexivity | now rewrite IH]. Qed.

Lemma split_dot_spec (s : string) :
  match split_dot s with
  | (ip, None) => s = ip /\ count_char is_dot s = 0
  | (ip, Some f) =>
      exists c, is_dot c = true /\ s = ip +:+ String c f /\ count_char is_dot ip = 0
  end.
Proof.
  induction s as [|c s IH]; simpl; [auto |].
  destruct (is_dot c) eqn:Hc.
  - exists c. auto.
  - destruct (split_dot s) as [ip [f|]]; simpl.
    + destruct IH as (d & Hd & -> & Hip). exists d. simpl. rewrite Hc. auto.
    + destruct IH as [<- Hs]. auto.
Qed.

Lemma dot_not_digit (c : ascii) : is_dot c = true -> is_digit c = false.
Proof.
  intros H. destruct (is_digit c) eqn:Hd; [| reflexivity].
  apply digit_not_dot in Hd. congruence.
Qed.

(** [float] accepts exactly the decimal numerals. *)
Lemma py_float_decimal (s : string) :
  (exists q, py_float s = Ok q) <-> is_decimal s = true.
Proof.
  unfold py_float, is_decimal. pose proof (split_dot_spec s) as Hs.
  destruct (split_dot s) as [ip [f|]]; simpl.
  - destruct Hs as (c & Hc & -> & Hip).
    rewrite string_forall_app, !count_char_app. simpl.
    unfold is_digit_dot at 2. rewrite Hc, (dot_not_digit c Hc), orb_true_r, Hip.
    rewrite (no_dot_digits ip Hip). simpl.
    split.
    + intros [q Hq].
      destruct (digits_value 0 (ip +:+ f)) as [n|] eqn:Hn; [| discriminate].
      apply digits_value_digits in Hn. rewrite string_forall_app in Hn.
      apply andb_prop in Hn as [Hi Hf].
      destruct (digits_count ip Hi) as [Hci _], (digits_count f Hf) as [Hcf Hdf].
      rewrite Hi, Hdf, Hci, Hcf, (no_dot_digits f Hdf), Hf. simpl.
      apply Nat.ltb_lt. rewrite <- length_append.
      destruct (ip +:+ f); [discriminate | simpl; lia].
    + intros H. apply andb_prop in H as [H Hpos]. apply andb_prop in H as [H Hdots].
      apply andb_prop in H as [Hi Hf].
      apply Nat.leb_le in Hdots. assert (Hdf : count_char is_dot f = 0) by lia.
      rewrite (no_dot_digits f Hdf) in Hf.
      destruct (digits_value_some (ip +:+ f) 0) as [n Hn].
      { now rewrite string_forall_app, Hi, Hf. }
      rewrite Hn.
      destruct (digits_count ip Hi) as [Hci _], (digits_count f Hf) as [Hcf _].
      rewrite Hci, Hcf, <- length_append in Hpos. apply Nat.ltb_lt in Hpos.
      destruct (ip +:+ f); [simpl in Hpos; lia | eauto].
  - destruct Hs as [<- Hd]. rewrite append_nil_r, Hd, (no_dot_digits s Hd). simpl.
    rewrite andb_true_r. split.
    + intros [q Hq].
      destruct (digits_value 0 s) as [n|] eqn:Hn; [| discriminate].
      apply digits_value_digits in Hn. rewrite Hn. simpl.
      destruct (digits_count s Hn) as [-> _]. apply Nat.ltb_lt.
      destruct s; [discriminate | simpl; lia].
    + intros H. apply andb_prop in H as [Hs Hpos].
      destruct (digits_value_some s 0 Hs) as [n ->].
      destruct (digits_count s Hs) as [Hc _]. rewrite Hc in Hpos.
      apply Nat.ltb_lt in Hpos. destruct s; [simpl in Hpos; lia | eauto].
Qed.

Lemma py_float_raises (s : string) :
  is_decimal s = false -> py_float s = Raise ValueError.
Proof.
  intros H. destruct (py_float s) as [q|e] eqn:Hq.
  - assert (is_decimal s = true) by (apply py_float_decimal; eauto). congruence.
  - destruct e; [reflexivity |]. unfold py_float in Hq.
    destruct (split_dot s) as [ip fp]. destruct (digits_value 0 _); [| discriminate].
    destruct (ip +:+ _); discriminate.
Qed.

(** ** The matcher on the lines of the grammar *)

Lemma greedy_more_max {R : Type} (c : ascii -> bool) (k : string -> string -> option R)
    (m rest taken : string) (res : R) :
  string_forall c m = true -> stops c rest = true ->
  k (taken +:+ m) rest = Some res ->
  greedy_more c taken (m +:+ rest) k = Some res.
Proof.
  revert taken. induction m as [|x m IH]; intros taken Hm Hstop Hk; simpl in *.
  - rewrite append_nil_r in Hk.
    destruct rest as [|a rest]; simpl in *; [exact Hk |].
    now destruct (c a).
  - apply andb_prop in Hm as [Hx Hm]. rewrite Hx.
    rewrite (IH (taken +:+ String x "")); auto.
    now rewrite append_snoc.
Qed.

Lemma greedy_plus_max {R : Type} (c : ascii -> bool) (k : string -> string -> option R)
    (m rest : string) (res : R) :
  class_text c m = true -> stops c rest = true ->
  k m rest = Some res ->
  greedy_plus c (m +:+ rest) k = Some res.
Proof.
  intros Hm Hstop Hk. apply class_text_elim in Hm as [Hne Hm].
  destruct m as [|x m]; [contradiction |]. simpl in *.
  apply andb_prop in Hm as [Hx Hm]. rewrite Hx.
  now apply greedy_more_max.
Qed.

(** Backtracking ends in failure when what follows fails after every match
    of the pattern. *)
Lemma rmatch_none {R : Type} (r : regex) (s : string) (g : groups)
    (k : string -> string -> groups -> option R) :
  (forall m s' g', s = m +:+ s' -> matches r m g g' -> k m s' g' = None) ->
  rmatch r s g k = None.
Proof.
  intros H. destruct (rmatch r s g k) as [res|] eqn:Hr; [| reflexivity].
  apply rmatch_sound in Hr as (m & s' & g' & Hs & Hm & Hk).
  rewrite (H m s' g' Hs Hm) in Hk. discriminate.
Qed.

(** A run of characters of a class, ended by a character outside it, is
    read in one way only. *)
Lemma class_run_unique (p : ascii -> bool) (w1 w2 : string) (c1 c2 : ascii)
    (r1 r2 : string) :
  string_forall p w1 = true -> string_forall p w2 = true ->
  p c1 = false -> p c2 = false ->
  w1 +:+ String c1 r1 = w2 +:+ String c2 r2 ->
  w1 = w2 /\ c1 = c2 /\ r1 = r2.
Proof.
  revert w2. induction w1 as [|x w1 IH]; intros w2 H1 H2 Hc1 Hc2 Heq.
  - destruct w2 as [|y w2]; simpl in *.
    + injection Heq as -> ->. auto.
    + injection Heq as -> _. apply andb_prop in H2 as [H2 _]. congruence.
  - destruct w2 as [|y w2]; simpl in *.
    + injection Heq as -> _. apply andb_prop in H1 as [H1 _]. congruence.
    + injection Heq as -> Heq.
      apply andb_prop in H1 as [_ H1]. apply andb_prop in H2 as [_ H2].
      destruct (IH w2 H1 H2 Hc1 Hc2 Heq) as (-> & -> & ->). auto.
Qed.

(** What is left after a part of a run of the class, when the run is
    followed by [c]: a character of the class, or [c]. *)
Lemma class_run_rest (p : ascii -> bool) (v s' t : string) (c : ascii) (u : string) :
  string_forall p v = true -> string_forall p t = true -> p c = false ->
  v +:+ s' = t +:+ String c u ->
  exists x r, s' = String x r /\ (p x = true \/ x = c).
Proof.
  revert t. induction v as [|y v IH]; intros t Hv Ht Hc Heq; simpl in *.
  - subst s'. destruct t as [|z t]; simpl in *; [eauto |].
    apply andb_prop in Ht as [Hz _]. eauto.
  - apply andb_prop in Hv as [Hy Hv]. destruct t as [|z t]; simpl in *.
    + injection Heq as -> _. congruence.
    + injection Heq as _ Heq. apply andb_prop in Ht as [_ Ht]. eauto.
Qed.

Lemma not_space_blocked (x : ascii) (r : string) :
  is_digit_dot x = true \/ x = "m"%char -> strip_prefix " " (String x r) = None.
Proof.
  intros H. cbn [strip_prefix].
  destruct (Ascii.eqb_spec " " x) as [<-|]; [| reflexivity].
  destruct H as [H|H]; discriminate.
Qed.

Lemma star_loop_blocked {R : Type} (n : nat) (taken s : string) (g : groups)
    (k : string -> string -> groups -> option R) :
  strip_prefix " " s = None -> k taken s g = None ->
  star_loop (rmatch extra_token) n taken s g k = None.
Proof.
  intros Hs Hk. destruct n as [|n]; cbn [star_loop rmatch]; [exact Hk |].
  now rewrite Hs.
Qed.

(** One more token is not read into [ train_time:<t>ms]: after
    [train_time:] and any part of [t], no space follows. *)
Lemma extra_token_stops_at_train_time {R : Type} (t u : string) (g : groups)
    (k : string -> string -> groups -> option R) :
  string_forall is_digit_dot t = true ->
  (forall m s' g', strip_prefix " " s' = None -> k m s' g' = None) ->
  rmatch extra_token (" train_time:" +:+ t +:+ String "m" u) g k = None.
Proof.
  intros Ht Hk. apply rmatch_none. intros m s' g' Hs Hm.
  invert_matches. simpl in Hs. injection Hs as Hs.
  rewrite append_assoc in Hs. simpl in Hs.
  match goal with
  | Hw : string_forall is_word ?w = true, Hv : string_forall is_digit_dot ?v = true |- _ =>
      change (_ = w +:+ String ":" (v +:+ s'))
        with ("train_time" +:+ String ":" (t +:+ String "m" u)
              = w +:+ String ":" (v +:+ s')) in Hs;
      apply (class_run_unique is_word) in Hs as (_ & _ & Hs);
        [| reflexivity | exact Hw | reflexivity | reflexivity];
      symmetry in Hs;
      apply (class_run_rest is_digit_dot v s' t "m" u Hv Ht eq_refl) in Hs
        as (x & r & -> & Hx)
  end.
  apply Hk. now apply not_space_blocked.
Qed.

Lemma extras_text_stops (extras : list (string * string)) (rest : string) :
  stops is_digit_dot (extras_text extras +:+ String " " rest) = true.
Proof. destruct extras as [|[name value] extras]; reflexivity. Qed.

(** The repetition reads the additional tokens and stops before
    [ train_time:]. *)
Lemma star_loop_extras {R : Type} (extras : list (string * string)) :
  forall (n : nat) (taken t u : string) (g : groups)
         (k : string -> string -> groups -> option R) (res : R),
    forallb extra_ok extras = true -> length extras <= n ->
    string_forall is_digit_dot t = true ->
    (forall m m' s g', k m s g' = k m' s g') ->
    (forall m s' g', strip_prefix " " s' = None -> k m s' g' = None) ->
    k "" (" train_time:" +:+ t +:+ String "m" u) g = Some res ->
    star_loop (rmatch extra_token) n taken
      (extras_text extras +:+ " train_time:" +:+ t +:+ String "m" u) g k = Some res.
Proof.
  induction extras as [|[name value] extras IH];
    intros n taken t u g k res Hok Hn Ht Htext Hblocked Hk.
  - change (extras_text [] +:+ " train_time:" +:+ t +:+ String "m" u)
      with (" train_time:" +:+ t +:+ String "m" u).
    rewrite (Htext "" taken) in Hk.
    destruct n as [|n]; cbn [star_loop]; [exact Hk |].
    rewrite extra_token_stops_at_train_time; [exact Hk | exact Ht |].
    intros m s' g' Hs. apply star_loop_blocked; auto.
  - destruct n as [|n]; [simpl in Hn; lia |]. simpl in Hn.
    cbn [forallb] in Hok. apply andb_prop in Hok as [He Hok].
    apply andb_prop in He as [Hname Hvalue]. cbn [fst snd] in Hname, Hvalue.
    cbn [star_loop].
    replace (rmatch extra_token _ g _) with (Some res); [reflexivity |].
    symmetry. cbn [extras_text]. rewrite !append_assoc.
    cbn [rmatch]. change (strip_prefix " " (" " +:+ ?s)) with (Some s).
    cbn iota beta.
    apply greedy_plus_max; [exact Hname | reflexivity |].
    change (strip_prefix ":" (":" +:+ ?s)) with (Some s). cbn iota beta.
    apply greedy_plus_max; [exact Hvalue | apply extras_text_stops |].
    apply IH; auto with lia.
Qed.

Lemma extras_length (extras : list (string * string)) (tail : string) :
  length extras <= String.length (extras_text extras +:+ tail).
Proof.
  induction extras as [|[name value] extras IH]; simpl; [lia |].
  rewrite !append_assoc, !length_append. simpl. rewrite !length_append.
  rewrite length_append in IH. lia.
Qed.

(** The pattern matches a line of the grammar, and its six groups are the
    six texts the line was written with. *)
Lemma log_line_matches (s1 s2 name value : string) (extras : list (string * string))
    (t a : string) :
  class_text is_digit s1 = true -> class_text is_digit s2 = true ->
  class_text is_word name = true -> class_text is_digit_dot value = true ->
  forallb extra_ok extras = true ->
  class_text is_digit_dot t = true -> class_text is_digit_dot_n a = true ->
  re_match LOG_LINE_REGEX (metric_line s1 s2 name value extras t a)
  = Some [(6, a); (5, t); (4, value); (3, name); (2, s2); (1, s1)].
Proof.
  intros H1 H2 Hname Hvalue Hextras Ht Ha.
  unfold re_match, LOG_LINE_REGEX, metric_line. cbn [rmatch].
  change (strip_prefix "step:" ("step:" +:+ ?s)) with (Some s). cbn iota beta.
  apply greedy_plus_max; [exact H1 | reflexivity |].
  change (strip_prefix "/" ("/" +:+ ?s)) with (Some s). cbn iota beta.
  apply greedy_plus_max; [exact H2 | reflexivity |].
  change (strip_prefix " " (" " +:+ ?s)) with (Some s). cbn iota beta.
  apply greedy_plus_max; [exact Hname | reflexivity |].
  change (strip_prefix ":" (":" +:+ ?s)) with (Some s). cbn iota beta.
  apply greedy_plus_max; [exact Hvalue | apply extras_text_stops |].
  change ("ms step_avg:" +:+ a +:+ "ms")
    with (String "m" ("s step_avg:" +:+ a +:+ "ms")).
  apply star_loop_extras.
  - exact Hextras.
  - apply extras_length.
  - now apply class_text_elim in Ht.
  - reflexivity.
  - intros m s' g' Hs. cbn [rmatch].
    destruct s' as [|x s']; [reflexivity |]. cbn [strip_prefix] in *.
    now destruct (Ascii.eqb " " x).
  - cbn [rmatch].
    change (strip_prefix " train_time:" (" train_time:" +:+ ?s)) with (Some s).
    cbn iota beta.
    apply greedy_plus_max; [exact Ht | reflexivity |].
    change (strip_prefix "ms step_avg:" (String "m" ("s step_avg:" +:+ ?s)))
      with (Some s).
    cbn iota beta.
    apply greedy_plus_max; [exact Ha | reflexivity |].
    reflexivity.
Qed.

(** ** [strip] on a padded line *)

Lemma lstrip_spaces (pre s : string) :
  string_forall is_space pre = true -> lstrip (pre +:+ s) = lstrip s.
Proof.
  induction pre as [|c pre IH]; simpl; [reflexivity |].
  intros H. apply andb_prop in H as [Hc H]. rewrite Hc. auto.
Qed.

Lemma rstrip_spaces (post : string) :
  string_forall is_space post = true -> rstrip post = "".
Proof.
  induction post as [|c post IH]; simpl; [reflexivity |].
  intros H. apply andb_prop in H as [Hc H]. now rewrite (IH H), Hc.
Qed.

Lemma rstrip_app (a b : string) :
  rstrip (a +:+ b)
  = match rstrip b with
    | EmptyString => rstrip a
    | b' => a +:+ b'
    end.
Proof.
  induction a as [|x a IH]; simpl.
  - now destruct (rstrip b).
  - rewrite IH. destruct (rstrip b) as [|y b']; [reflexivity |].
    now destruct a.
Qed.

Lemma metric_line_end (s1 s2 name value : string) (extras : list (string * string))
    (t a : string) :
  metric_line s1 s2 name value extras t a
  = ("step:" +:+ s1 +:+ "/" +:+ s2 +:+ " " +:+ name +:+ ":" +:+ value
     +:+ extras_text extras +:+ " train_time:" +:+ t +:+ "ms step_avg:" +:+ a) +:+ "ms".
Proof. unfold metric_line. now rewrite !append_assoc. Qed.

Lemma strip_metric_line (pre post s1 s2 name value : string)
    (extras : list (string * string)) (t a : string) :
  string_forall is_space pre = true -> string_forall is_space post = true ->
  strip (pre +:+ metric_line s1 s2 name value extras t a +:+ post)
  = metric_line s1 s2 name value extras t a.
Proof.
  intros Hpre Hpost. unfold strip. rewrite (lstrip_spaces _ _ Hpre).
  replace (lstrip (metric_line s1 s2 name value extras t a +:+ post))
    with (metric_line s1 s2 name value extras t a +:+ post) by reflexivity.
  rewrite rstrip_app, (rstrip_spaces _ Hpost).
  rewrite metric_line_end at 1. rewrite rstrip_app.
  change (rstrip "ms") with "ms". cbn iota.
  now rewrite <- metric_line_end.
Qed.

Lemma string_forall_impl (p q : ascii -> bool) (s : string) :
  (forall c, p c = true -> q c = true) ->
  string_forall p s = true -> string_forall q s = true.
Proof.
  intros Hpq. induction s as [|c s IH]; simpl; [reflexivity |].
  intros H. apply andb_prop in H as [Hc H]. now rewrite (Hpq c Hc), IH.
Qed.

Lemma py_int_class (s : string) (n : Z) :
  py_int s = Ok n -> class_text is_digit s = true.
Proof.
  unfold py_int. destruct s as [|c s]; [discriminate |].
  destruct (Nat.ltb _ _); [discriminate |].
  destruct (digits_value 0 (String c s)) as [m|] eqn:Hm; [| discriminate].
  intros _. apply class_text_intro; [discriminate |].
  now apply digits_value_digits in Hm.
Qed.

Lemma py_float_class (s : string) (q : Q) :
  py_float s = Ok q -> class_text is_digit_dot s = true.
Proof.
  intros H. assert (Hd : is_decimal s = true) by (apply py_float_decimal; eauto).
  unfold is_decimal in Hd. apply andb_prop in Hd as [Hd Hpos].
  apply andb_prop in Hd as [Hd _].
  apply class_text_intro; [| exact Hd]. intros ->. discriminate.
Qed.

(** ** The Log Record Parser *)

Lemma nan_not_captured (a : string) :
  class_text is_digit_dot_n a = true -> String.eqb a "nan" = false.
Proof.
  intros H. destruct (String.eqb_spec a "nan") as [->|]; [| reflexivity].
  vm_compute in H. discriminate.
Qed.

(** C1, at the line the training script writes for step 0: the class
    [[\d\.n]] of the last group has no ['a'], so the pattern does not match
    [step_avg:nanms] and the line gives no sample at all, where the grammar
    promises a sample without [stepAvgMs]. *)
Theorem nan_line_gives_no_sample :
  let line := "step:0/5100 val_loss:10.8258 train_time:0ms step_avg:nanms" in
  line = metric_line "0" "5100" "val_loss" "10.8258" [] "0" "nan"
  /\ re_match LOG_LINE_REGEX (strip line) = None
  /\ parse_metric line = Ok None
  /\ extract [line +:+ NL] = Ok ("", []).
Proof. vm_compute. auto. Qed.

(** No sample ever has an absent [step_avg]: the branch
    [if step_avg == 'nan'] is never taken. *)
Lemma step_avg_never_absent (line : string) (d : MetricSample) :
  parse_metric line = Ok (Some d) -> step_avg d <> None.
Proof.
  unfold parse_metric. destruct (re_match LOG_LINE_REGEX (strip line)) as [m|] eqn:Hm;
    [| discriminate].
  apply log_line_groups in Hm
    as (s1 & s2 & name & value & t & a & -> & _ & _ & _ & _ & _ & Ha).
  cbn [match_group group Nat.eqb].
  rewrite (nan_not_captured a Ha).
  destruct (py_int s1); [| discriminate]. destruct (py_int s2); [| discriminate].
  destruct (py_float value); [| discriminate]. destruct (py_float t); [| discriminate].
  destruct (py_float a); [| discriminate].
  simpl. intros [= <-]. discriminate.
Qed.

(** Where C1 holds: a line of the grammar whose [step_avg] is a number,
    with blanks around it or not, gives the sample of the numbers written
    in it; the additional tokens are read and dropped. *)
Lemma numeric_line_parsed (pre post s1 s2 name value : string)
    (extras : list (string * string)) (t a : string) (n1 n2 : Z) (qv qt qa : Q) :
  string_forall is_space pre = true -> string_forall is_space post = true ->
  py_int s1 = Ok n1 -> py_int s2 = Ok n2 ->
  class_text is_word name = true -> py_float value = Ok qv ->
  forallb extra_ok extras = true ->
  py_float t = Ok qt -> py_float a = Ok qa ->
  parse_metric (pre +:+ metric_line s1 s2 name value extras t a +:+ post)
  = Ok (Some {| step := n1; metric_name := name; metric_value := qv;
                train_time := qt; step_avg := Some qa |}).
Proof.
  intros Hpre Hpost H1 H2 Hname Hv Hextras Ht Ha.
  assert (Ha' : class_text is_digit_dot_n a = true).
  { apply py_float_class in Ha. apply class_text_elim in Ha as [Hne Ha].
    apply class_text_intro; [exact Hne |].
    apply (string_forall_impl is_digit_dot); [| exact Ha].
    intros c Hc. unfold is_digit_dot_n. now rewrite Hc. }
  unfold parse_metric. rewrite (strip_metric_line _ _ _ _ _ _ _ _ _ Hpre Hpost).
  rewrite (log_line_matches s1 s2 name value extras t a);
    eauto using py_int_class, py_float_class.
  cbn [match_group group Nat.eqb].
  rewrite H1, H2, Hv, Ht, (nan_not_captured a Ha'), Ha. reflexivity.
Qed.

(** C2 as stated fails: this line matches the pattern and [float('1.2.3')]
    raises. *)
Lemma matched_line_raises :
  let line := "step:1/10 val_loss:1.2.3 train_time:5ms step_avg:1ms" in
  re_match LOG_LINE_REGEX (strip line)
  = Some [(6, "1"); (5, "5"); (4, "1.2.3"); (3, "val_loss"); (2, "10"); (1, "1")]
  /\ py_float "1.2.3" = Raise ValueError
  /\ parse_metric line = Raise ValueError.
Proof. vm_compute. auto. Qed.

(** C2, amended: a line that does not match gives no sample and no error;
    on a line that matches, the first two groups are digit strings and the
    conversions succeed exactly when these are no longer than [int] allows
    and the three captured numbers are decimal numerals; otherwise
    [ValueError] leaves the parser. *)
Theorem parse_metric_conversions (line : string) :
  match re_match LOG_LINE_REGEX (strip line) with
  | None => parse_metric line = Ok None
  | Some m =>
      class_text is_digit (match_group m 1) = true
      /\ class_text is_digit (match_group m 2) = true
      /\ if Nat.leb (String.length (match_group m 1)) int_max_str_digits
            && Nat.leb (String.length (match_group m 2)) int_max_str_digits
            && is_decimal (match_group m 4) && is_decimal (match_group m 5)
            && is_decimal (match_group m 6)
         then exists d, parse_metric line = Ok (Some d)
         else parse_metric line = Raise ValueError
  end.
Proof.
  unfold parse_metric.
  destruct (re_match LOG_LINE_REGEX (strip line)) as [m|] eqn:Hm; [| reflexivity].
  apply log_line_groups in Hm
    as (s1 & s2 & name & value & t & a & -> & H1 & H2 & _ & _ & _ & Ha).
  cbn [match_group group Nat.eqb].
  split; [exact H1 |]. split; [exact H2 |].
  rewrite (nan_not_captured a Ha).
  destruct (Nat.leb (String.length s1) int_max_str_digits) eqn:Hl1; cbn [andb];
    [| now rewrite (py_int_too_long s1 Hl1)].
  destruct (py_int_total s1 H1 Hl1) as [n1 ->]. cbn [bind].
  destruct (Nat.leb (String.length s2) int_max_str_digits) eqn:Hl2; cbn [andb];
    [| now rewrite (py_int_too_long s2 Hl2)].
  destruct (py_int_total s2 H2 Hl2) as [n2 ->]. cbn [bind].
  destruct (is_decimal value) eqn:Hv; cbn [andb].
  - apply py_float_decimal in Hv as [qv ->]. cbn [bind].
    destruct (is_decimal t) eqn:Ht; cbn [andb].
    + apply py_float_decimal in Ht as [qt ->]. cbn [bind].
      destruct (is_decimal a) eqn:Hd.
      * apply py_float_decimal in Hd as [qa ->]. cbn [bind]. eauto.
      * now rewrite (py_float_raises a Hd).
    + now rewrite (py_float_raises t Ht).
  - now rewrite (py_float_raises value Hv).
Qed.

(** ** The Run Extractor *)

Lemma blocks_cons (lines : list string) : exists b bs, blocks lines = b :: bs.
Proof.
  destruct lines as [|l rest]; simpl; [eauto |].
  destruct (is_sentinel l); [eauto |]. destruct (blocks rest); eauto.
Qed.

Lemma outside_blocks_cons (b : list string) (bs : list (list string)) :
  outside_blocks (b :: bs) = b :: outside_blocks (tail bs).
Proof. now destruct bs. Qed.

Lemma blocks_length (lines : list string) :
  length (blocks lines) = S (sentinel_count lines).
Proof.
  unfold sentinel_count. induction lines as [|l rest IH]; simpl; [reflexivity |].
  rewrite filter_cons. destruct (is_sentinel l) eqn:Hl.
  - rewrite decide_True by reflexivity. simpl. now rewrite IH.
  - rewrite decide_False by discriminate.
    destruct (blocks_cons rest) as (b & bs & Hb). rewrite Hb in *. exact IH.
Qed.

(** Without a sentinel line there is one block: all the lines. *)
Lemma blocks_no_sentinel (lines : list string) :
  sentinel_count lines = 0 -> blocks lines = [lines].
Proof.
  unfold sentinel_count. induction lines as [|l rest IH]; simpl; [reflexivity |].
  rewrite filter_cons. destruct (is_sentinel l) eqn:Hl.
  - rewrite decide_True by reflexivity. discriminate.
  - rewrite decide_False by discriminate. intros H. now rewrite (IH H).
Qed.

(** The first block ends at the first sentinel line. *)
Lemma blocks_split (b : list string) (s : string) (rest : list string) :
  sentinel_count b = 0 -> is_sentinel s = true ->
  blocks (b ++ s :: rest) = b :: blocks rest.
Proof.
  unfold sentinel_count. intros Hb Hs. induction b as [|l b IH]; simpl.
  - now rewrite Hs.
  - rewrite filter_cons in Hb. destruct (is_sentinel l) eqn:Hl.
    + rewrite decide_True in Hb by reflexivity. discriminate.
    + rewrite decide_False in Hb by discriminate. now rewrite (IH Hb).
Qed.

Lemma blocks_no_sentinel_inside (lines : list string) :
  Forall (fun l => is_sentinel l = false) (concat (blocks lines)).
Proof.
  induction lines as [|l rest IH]; simpl; [constructor |].
  destruct (is_sentinel l) eqn:Hl; [exact IH |].
  destruct (blocks_cons rest) as (b & bs & Hb). rewrite Hb in *.
  simpl in *. now constructor.
Qed.

(** With a closing sentinel for each opening one, the blocks of odd rank
    are the blocks between the pairs. *)
Lemma paired_blocks_balanced (n : nat) :
  forall bs : list (list string),
    length bs = S (2 * n) -> paired_blocks bs = outside_blocks (tail bs).
Proof.
  induction n as [|n IH]; intros bs Hlen.
  - destruct bs as [|b0 [|b1 bs]]; simpl in *; try discriminate. reflexivity.
  - destruct bs as [|b0 [|b1 [|b2 bs]]]; simpl in Hlen; try lia.
    change (paired_blocks (b0 :: b1 :: b2 :: bs)) with (b1 :: paired_blocks (b2 :: bs)).
    rewrite IH by (simpl; lia). reflexivity.
Qed.

(** The loop, started in either mode: in code mode the blocks change role. *)
Lemma scan_lines_blocks (lines : list string) :
  forall (in_code : bool) (code_lines : list string) (data : list MetricSample),
    let bs := blocks lines in
    let metrics := concat (outside_blocks (if in_code then tail bs else bs)) in
    let codes := concat (outside_blocks (if in_code then bs else tail bs)) in
    forallb (fun l => negb (raises l)) metrics = true ->
    scan_lines lines in_code code_lines data
    = Ok ((code_lines ++ codes)%list, (data ++ omap sample_of metrics)%list).
Proof.
  induction lines as [|l rest IH]; intros in_code cl d; cbn zeta.
  - destruct in_code; simpl; now rewrite !app_nil_r.
  - destruct (blocks_cons rest) as (b & bs & Hb).
    simpl. destruct (is_sentinel l) eqn:Hl.
    + intros H. rewrite IH.
      * rewrite Hb. destruct in_code; reflexivity.
      * rewrite Hb in *. destruct in_code; exact H.
    + specialize (IH in_code). rewrite Hb in *. cbn zeta in IH.
      destruct in_code; simpl in *.
      * intros H. rewrite IH by exact H. now rewrite <- !app_assoc.
      * unfold raises at 1, sample_of at 1.
        destruct (parse_metric l) as [[x|]|e]; simpl; intros H; try discriminate.
        -- rewrite IH by exact H. now rewrite <- !app_assoc.
        -- now rewrite IH by exact H.
Qed.

Lemma extract_blocks (lines : list string) :
  forallb (fun l => negb (raises l)) (concat (outside_blocks (blocks lines))) = true ->
  extract lines
  = Ok (join (concat (outside_blocks (tail (blocks lines)))),
        omap sample_of (concat (outside_blocks (blocks lines)))).
Proof.
  intros H. unfold extract.
  now rewrite (scan_lines_blocks lines false [] [] H).
Qed.

Lemma sentinel_count_cons (l : string) (rest : list string) :
  sentinel_count (l :: rest)
  = (if is_sentinel l then 1 else 0) + sentinel_count rest.
Proof.
  unfold sentinel_count. rewrite filter_cons. destruct (is_sentinel l).
  - now rewrite decide_True by reflexivity.
  - now rewrite decide_False by discriminate.
Qed.

(** The loop over [a ++ b] goes on over [b] from where it leaves [a]; each
    sentinel line of [a] has changed the mode. *)
Lemma scan_lines_app (a b : list string) :
  forall (in_code : bool) (cl : list string) (d : list MetricSample)
         (cl' : list string) (d' : list MetricSample),
    scan_lines a in_code cl d = Ok (cl', d') ->
    scan_lines (a ++ b) in_code cl d
    = scan_lines b (xorb in_code (Nat.odd (sentinel_count a))) cl' d'.
Proof.
  induction a as [|l a IH]; intros in_code cl d cl' d' H; simpl in *.
  - injection H as <- <-. now rewrite xorb_false_r.
  - rewrite sentinel_count_cons. destruct (is_sentinel l).
    + rewrite (IH _ _ _ _ _ H). f_equal.
      change (1 + sentinel_count a) with (S (sentinel_count a)).
      rewrite Nat.odd_succ, <- Nat.negb_odd. now destruct in_code, (Nat.odd _).
    + destruct in_code; simpl; [now apply IH |].
      destruct (parse_metric l) as [[x|]|e]; simpl in *; try discriminate;
        now apply IH.
Qed.

(** In code mode, lines without a sentinel all go to the code. *)
Lemma scan_lines_in_code (post : list string) :
  forall (cl : list string) (d : list MetricSample),
    sentinel_count post = 0 ->
    scan_lines post true cl d = Ok ((cl ++ post)%list, d).
Proof.
  induction post as [|l post IH]; intros cl d H; simpl.
  - now rewrite app_nil_r.
  - rewrite sentinel_count_cons in H. destruct (is_sentinel l); [discriminate |].
    rewrite IH by exact H. now rewrite <- app_assoc.
Qed.

Lemma join_app (a b : list string) : join (a ++ b) = join a +:+ join b.
Proof.
  unfold join. induction a as [|x a IH]; simpl; [reflexivity |].
  destruct a as [|y a]; simpl in *.
  - destruct b; simpl; now rewrite ?append_nil_r.
  - rewrite IH. now rewrite append_assoc.
Qed.

Lemma even_blocks (lines : list string) :
  Nat.even (sentinel_count lines) = true ->
  paired_blocks (blocks lines) = outside_blocks (tail (blocks lines)).
Proof.
  intros H. apply Nat.even_spec in H as [k Hk].
  apply (paired_blocks_balanced k). now rewrite blocks_length, Hk.
Qed.

(** C3 as stated fails: the sentinels of this file are balanced, and no
    code is extracted, because [float('1.2.3')] raises on its first line. *)
Lemma balanced_file_raises :
  let lines :=
    [ "step:1/10 val_loss:1.2.3 train_time:5ms step_avg:1ms" +:+ NL;
      str_mul "=" 100 +:+ NL; "print(1)" +:+ NL; str_mul "=" 100 +:+ NL ] in
  Nat.even (sentinel_count lines) = true /\ extract lines = Raise ValueError.
Proof. vm_compute. auto. Qed.

(** C3, amended: when the sentinels are balanced and no line of the metrics
    region that matches the pattern carries a number [float] rejects, the
    code is the concatenation of the lines strictly between each sentinel
    pair, the samples are those of the lines outside the pairs, in file
    order, and no sentinel line is among either. *)
Theorem extract_balanced (lines : list string) :
  Nat.even (sentinel_count lines) = true ->
  forallb (fun l => negb (raises l)) (concat (outside_blocks (blocks lines))) = true ->
  extract lines
  = Ok (join (concat (paired_blocks (blocks lines))),
        omap sample_of (concat (outside_blocks (blocks lines))))
  /\ Forall (fun l => is_sentinel l = false) (concat (blocks lines)).
Proof.
  intros Heven Hclean. split; [| apply blocks_no_sentinel_inside].
  rewrite (even_blocks lines Heven). now apply extract_blocks.
Qed.

Lemma extract_balanced_witness :
  let lines :=
    [ "step:1/10 val_loss:2.5 train_time:100.0ms step_avg:50.0ms" +:+ NL;
      str_mul "=" 100 +:+ NL; "print(1)" +:+ NL; str_mul "=" 100 +:+ NL;
      "step:2/10 val_loss:2.1 train_time:200.0ms step_avg:100.0ms" +:+ NL ] in
  extract lines
  = Ok (join (concat (paired_blocks (blocks lines))),
        omap sample_of (concat (outside_blocks (blocks lines))))
  /\ Forall (fun l => is_sentinel l = false) (concat (blocks lines)).
Proof. apply extract_balanced; vm_compute; reflexivity. Defined.

(** C4 as stated fails: this file has no sentinel line, its line matches
    the pattern, and the line does not become a sample. *)
Lemma matching_line_without_sample :
  let line := "step:1/10 val_loss:2.5 train_time:1.0.0ms step_avg:1ms" +:+ NL in
  sentinel_count [line] = 0
  /\ is_Some (re_match LOG_LINE_REGEX (strip line))
  /\ extract [line] = Raise ValueError.
Proof. vm_compute. eauto. Qed.

(** A line that matches the pattern gives a sample or raises. *)
Lemma matching_line_sample (line : string) :
  raises line = false ->
  is_Some (re_match LOG_LINE_REGEX (strip line)) -> is_Some (sample_of line).
Proof.
  unfold raises, sample_of, parse_metric. intros Hr [m Hm]. rewrite Hm in *.
  destruct (py_int (match_group m 1)); [| discriminate].
  destruct (py_int (match_group m 2)); [| discriminate].
  destruct (py_float (match_group m 4)); [| discriminate].
  destruct (py_float (match_group m 5)); [| discriminate].
  cbn [bind] in *. destruct (String.eqb _ _); [eexists; reflexivity |].
  destruct (py_float (match_group m 6)); [eexists; reflexivity | discriminate].
Qed.

(** C4, amended: without a sentinel line, and with no matching line whose
    number [int] or [float] rejects, the code is empty, the samples are
    those of the lines and every line that matches the pattern has its
    sample among them; after an odd number of sentinel lines, every line
    after the last one is in the code, after the code of the pairs before
    it. *)
Theorem extract_unbalanced :
  (forall lines : list string,
     sentinel_count lines = 0 ->
     forallb (fun l => negb (raises l)) lines = true ->
     extract lines = Ok ("", omap sample_of lines)
     /\ forall l, l ∈ lines -> is_Some (re_match LOG_LINE_REGEX (strip l)) ->
          exists d, sample_of l = Some d /\ d ∈ omap sample_of lines)
  /\ (forall (pre : list string) (s : string) (post : list string),
        Nat.even (sentinel_count pre) = true ->
        is_sentinel s = true ->
        sentinel_count post = 0 ->
        forallb (fun l => negb (raises l)) (concat (outside_blocks (blocks pre))) = true ->
        extract (pre ++ s :: post)
        = Ok (join (concat (paired_blocks (blocks pre))) +:+ join post,
              omap sample_of (concat (outside_blocks (blocks pre))))).
Proof.
  split.
  - intros lines H0 Hclean. split.
    + rewrite extract_blocks; rewrite (blocks_no_sentinel lines H0); simpl;
        rewrite ?app_nil_r; auto.
    + intros l Hl Hmatch. rewrite forallb_forall in Hclean.
      apply list_elem_of_In in Hl as Hin. apply Hclean in Hin.
      apply negb_true_iff in Hin.
      destruct (matching_line_sample l Hin Hmatch) as [d Hd].
      exists d. split; [exact Hd |]. apply list_elem_of_omap. eauto.
  - intros pre s post Heven Hs Hpost Hclean. unfold extract.
    pose proof (scan_lines_blocks pre false [] [] Hclean) as Hpre. simpl in Hpre.
    rewrite (scan_lines_app _ (s :: post) _ _ _ _ _ Hpre).
    rewrite <- Nat.negb_even, Heven. simpl. rewrite Hs.
    rewrite scan_lines_in_code by exact Hpost. simpl.
    now rewrite join_app, (even_blocks pre Heven).
Qed.

Lemma extract_unbalanced_witness :
  (let lines := [ "step:1/10 val_loss:2.5 train_time:100.0ms step_avg:50.0ms" +:+ NL;
                  "banner" +:+ NL ] in
   extract lines = Ok ("", omap sample_of lines)
   /\ forall l, l ∈ lines -> is_Some (re_match LOG_LINE_REGEX (strip l)) ->
        exists d, sample_of l = Some d /\ d ∈ omap sample_of lines)
  /\ (let pre := [ "step:1/10 val_loss:2.5 train_time:100.0ms step_avg:50.0ms" +:+ NL ] in
      extract (pre ++ (str_mul "=" 100 +:+ NL) :: [ "print(1)" +:+ NL; "print(2)" ])
      = Ok (join (concat (paired_blocks (blocks pre)))
            +:+ join [ "print(1)" +:+ NL; "print(2)" ],
            omap sample_of (concat (outside_blocks (blocks pre))))).
Proof.
  split.
  - apply (proj1 extract_unbalanced); vm_compute; reflexivity.
  - apply (proj2 extract_unbalanced); vm_compute; reflexivity.
Defined.

(** ** The Run Repository *)

Lemma insert_run_perm (r : Run) (rs : list Run) : insert_run r rs ≡ₚ r :: rs.
Proof.
  induction rs as [|r' rs IH]; simpl; [reflexivity |].
  destruct (Qle_bool (mtime r') (mtime r)); [reflexivity |].
  rewrite IH. apply Permutation_swap.
Qed.

Lemma sort_runs_perm (rs : list Run) : sort_runs rs ≡ₚ rs.
Proof.
  unfold sort_runs. induction rs as [|r rs IH]; simpl; [reflexivity |].
  now rewrite insert_run_perm, IH.
Qed.

Lemma insert_run_sorted (r : Run) (rs : list Run) :
  StronglySorted not_older rs -> StronglySorted not_older (insert_run r rs).
Proof.
  induction rs as [|r' rs IH]; intros Hs; simpl.
  - repeat constructor.
  - apply StronglySorted_cons in Hs as [Hall Hs].
    destruct (Qle_bool (mtime r') (mtime r)) eqn:Hle.
    + apply Qle_bool_iff in Hle. constructor.
      * now constructor.
      * constructor; [exact Hle |].
        eapply Forall_impl; [exact Hall |]. unfold not_older. intros x Hx.
        now apply Qle_trans with (mtime r').
    + constructor; [now apply IH |].
      rewrite insert_run_perm. constructor; [| exact Hall].
      unfold not_older. apply Qlt_le_weak, Qnot_le_lt. intros Hle'.
      apply Qle_bool_iff in Hle'. congruence.
Qed.

Lemma sort_runs_sorted (rs : list Run) : StronglySorted not_older (sort_runs rs).
Proof.
  unfold sort_runs. induction rs as [|r rs IH]; simpl; [constructor |].
  now apply insert_run_sorted.
Qed.

Lemma sorted_lookup (l : list Run) :
  StronglySorted not_older l ->
  forall i j a b, l !! i = Some a -> l !! j = Some b -> i < j -> not_older a b.
Proof.
  induction 1 as [|x l Hs IH Hall]; intros i j a b Ha Hb Hij.
  - discriminate.
  - destruct j as [|j]; [lia |]. simpl in Hb. destruct i as [|i]; simpl in Ha.
    + injection Ha as <-. rewrite Forall_forall in Hall.
      apply Hall. eapply list_elem_of_lookup_2, Hb.
    + apply (IH i j); auto with lia.
Qed.

Section Repository.

Variable strftime : Q -> string.

(** C5: in the list [parse_logs] returns, a run with a larger modification
    time than another stands before it. *)
Theorem parse_logs_most_recent_first (files : list file) (runs : list Run)
    (i j : nat) (a b : Run) :
  parse_logs strftime files = Ok runs ->
  runs !! i = Some a -> runs !! j = Some b ->
  (mtime b < mtime a)%Q ->
  i < j.
Proof.
  unfold parse_logs. destruct (collect_runs strftime files []) as [rs|e]; [| discriminate].
  simpl. intros [= <-] Ha Hb Hlt.
  pose proof (sorted_lookup _ (sort_runs_sorted rs)) as Hsorted.
  destruct (Nat.lt_trichotomy i j) as [Hij | [-> | Hji]]; [exact Hij | |].
  - rewrite Ha in Hb. injection Hb as <-. now apply Qlt_irrefl in Hlt.
  - specialize (Hsorted j i b a Hb Ha Hji). unfold not_older in Hsorted.
    now apply Qlt_not_le in Hlt.
Qed.

End Repository.

Lemma parse_logs_most_recent_first_witness :
  let files :=
    [ {| filename := "old.txt"; file_mtime := 5; file_lines := ["a" +:+ NL] |};
      {| filename := "notes.md"; file_mtime := 9; file_lines := [] |};
      {| filename := "new.txt"; file_mtime := 7; file_lines := ["b" +:+ NL] |} ] in
  let old := {| run_id := "old"; timestamp := ""; mtime := 5; code := ""; data := [] |} in
  let new := {| run_id := "new"; timestamp := ""; mtime := 7; code := ""; data := [] |} in
  parse_logs (fun _ => "") files = Ok [new; old] /\ 0 < 1.
Proof.
  intros files old new. split; [vm_compute; reflexivity |].
  apply (parse_logs_most_recent_first (fun _ => "") files [new; old] 0 1 new old);
    vm_compute; reflexivity.
Defined.

(** ** The Diff Engine *)

Lemma find_index_found (runs : list Run) (rid : string) :
  forall i index,
    find_index runs rid i = Some index ->
    exists r, runs !! (index - i) = Some r /\ run_id r = rid /\ i <= index.
Proof.
  induction runs as [|r runs IH]; intros i index H; simpl in H; [discriminate |].
  destruct (String.eqb_spec (run_id r) rid) as [Heq|Hne].
  - injection H as <-. exists r. rewrite Nat.sub_diag. auto.
  - apply IH in H as (r' & Hr' & Hid & Hle). exists r'.
    replace (index - i) with (S (index - S i)) by lia. auto with lia.
Qed.

Lemma find_index_absent (runs : list Run) (rid : string) :
  Forall (fun r => run_id r <> rid) runs -> forall i, find_index runs rid i = None.
Proof.
  induction 1 as [|r runs Hr _ IH]; intros i; simpl; [reflexivity |].
  destruct (String.eqb_spec (run_id r) rid); [contradiction | apply IH].
Qed.

Lemma get_item_Some {A : Type} (l : list A) (i : nat) (x : A) :
  l !! i = Some x -> get_item l i = Ok x.
Proof. unfold get_item. now intros ->. Qed.

Lemma last_item_Some {A : Type} (l : list A) (x : A) :
  last l = Some x -> last_item l = Ok x.
Proof. unfold last_item. now intros ->. Qed.

Section DiffEngine.

Variable strftime : Q -> string.
Variable unified_diff : list string -> list string -> string -> string -> list string.
Variable HTML_CONTENT : string.

Abbreviation GET := (do_GET strftime unified_diff HTML_CONTENT).
Abbreviation reaches := (reaches_memo strftime).
Abbreviation computed := (compute_diff unified_diff).

Lemma do_GET_cached files cache req rid compare_to runs index diff_text :
  reaches files req rid compare_to runs index ->
  cache !! (rid, compare_to) = Some diff_text ->
  GET files cache req = (Respond 200 "text/plain" (Text diff_text), cache).
Proof.
  intros (Hpath & Hrid & Hne & Hcmp & Hruns & Hidx) Hhit.
  unfold do_GET, serve_diff. rewrite Hpath. simpl.
  rewrite Hrid, Hcmp, Hruns. destruct rid; [contradiction |]. simpl.
  now rewrite Hidx, Hhit.
Qed.

Lemma do_GET_uncached files cache req rid compare_to runs index :
  reaches files req rid compare_to runs index ->
  cache !! (rid, compare_to) = None ->
  GET files cache req
  = match computed runs index compare_to with
    | Ok diff_text =>
        (Respond 200 "text/plain" (Text diff_text),
         <[(rid, compare_to) := diff_text]> cache)
    | Raise e => (Uncaught e, cache)
    end.
Proof.
  intros (Hpath & Hrid & Hne & Hcmp & Hruns & Hidx) Hmiss.
  unfold do_GET, serve_diff. rewrite Hpath. simpl.
  rewrite Hrid, Hcmp, Hruns. destruct rid; [contradiction |]. simpl.
  rewrite Hidx, Hmiss. now destruct (computed runs index compare_to).
Qed.

Lemma reaches_memo_selected files req rid compare_to runs index :
  reaches files req rid compare_to runs index ->
  exists selected, runs !! index = Some selected /\ run_id selected = rid.
Proof.
  intros (_ & _ & _ & _ & _ & Hidx).
  apply find_index_found in Hidx as (r & Hr & Hid & _).
  rewrite Nat.sub_0_r in Hr. eauto.
Qed.

(** C9: a request that is not in the memo and whose [compare_to] is
    neither ['previous'] nor ['first'] is answered with the label
    [No Run to Compare] in the header and the body
    [No run available to compare.]. *)
Theorem unknown_mode_no_comparison files cache req rid compare_to runs index :
  reaches files req rid compare_to runs index ->
  cache !! (rid, compare_to) = None ->
  compare_to <> "previous" -> compare_to <> "first" ->
  GET files cache req
  = (Respond 200 "text/plain"
       (Text (header rid "No Run to Compare" +:+ "No run available to compare.")),
     <[(rid, compare_to) := header rid "No Run to Compare"
                            +:+ "No run available to compare."]> cache).
Proof.
  intros Hreach Hmiss Hprev Hfirst.
  rewrite (do_GET_uncached _ _ _ _ _ _ _ Hreach Hmiss).
  destruct (reaches_memo_selected _ _ _ _ _ _ Hreach) as (sel & Hsel & Hid).
  unfold compute_diff, baseline. rewrite (get_item_Some _ _ _ Hsel). cbn [bind].
  destruct (String.eqb_spec compare_to "previous"); [contradiction |].
  destruct (String.eqb_spec compare_to "first"); [contradiction |].
  simpl. rewrite Hid. unfold header. now rewrite !append_assoc.
Qed.

(** C10: when the baseline run exists and its code is the empty string, a
    request that is not in the memo is answered with the body
    [No run available to compare.] under the label of the baseline: the
    handler tests the lines of the baseline, not whether a baseline was
    found. *)
Theorem empty_baseline_reported_missing files cache req rid compare_to runs index
    base label :
  reaches files req rid compare_to runs index ->
  cache !! (rid, compare_to) = None ->
  (compare_to = "previous" /\ runs !! (index + 1) = Some base /\ label = "Previous Run")
  \/ (compare_to = "first" /\ last runs = Some base /\ label = "First Run") ->
  code base = "" ->
  GET files cache req
  = (Respond 200 "text/plain"
       (Text (header rid label +:+ "No run available to compare.")),
     <[(rid, compare_to) := header rid label +:+ "No run available to compare."]> cache).
Proof.
  intros Hreach Hmiss Hbase Hcode.
  rewrite (do_GET_uncached _ _ _ _ _ _ _ Hreach Hmiss).
  destruct (reaches_memo_selected _ _ _ _ _ _ Hreach) as (sel & Hsel & Hid).
  unfold compute_diff, baseline. rewrite (get_item_Some _ _ _ Hsel). cbn [bind].
  destruct Hbase as [(-> & Hb & ->) | (-> & Hb & ->)].
  - pose proof (lookup_lt_Some _ _ _ Hb) as Hlt. apply Nat.ltb_lt in Hlt.
    rewrite Hlt, (get_item_Some _ _ _ Hb). simpl. rewrite Hcode, Hid. simpl.
    unfold header. now rewrite !append_assoc.
  - pose proof (lookup_lt_Some _ _ _ Hsel) as Hlt.
    assert (Hpos : Nat.ltb 0 (length runs) = true) by (apply Nat.ltb_lt; lia).
    rewrite Hpos, (last_item_Some _ _ Hb). simpl. rewrite Hcode, Hid. simpl.
    unfold header. now rewrite !append_assoc.
Qed.

(** C6, at a run without code compared with itself: [run_a] is the oldest
    run, so it is its own baseline under ['first']; the two codes are the
    same empty text, and the body is [No run available to compare.], not
    [No differences found.]. *)
Theorem identical_empty_code_reported_missing :
  (exists newer older,
     parse_logs strftime example_files = Ok [newer; older]
     /\ run_id older = "run_a" /\ code older = ""
     /\ last_item [newer; older] = Ok older)
  /\ GET example_files ∅ (diff_request "run_a" "first")
     = (Respond 200 "text/plain"
          (Text (header "run_a" "First Run" +:+ "No run available to compare.")),
        {[ ("run_a", "first")
           := header "run_a" "First Run" +:+ "No run available to compare." ]}).
Proof.
  split.
  - eexists _, _. vm_compute. repeat split.
  - vm_compute. reflexivity.
Qed.

Lemma splitlines_from_nonempty (s cur : string) :
  cur <> "" \/ s <> "" -> splitlines_from cur s <> [].
Proof.
  revert cur. induction s as [|c s IH]; intros cur H; simpl.
  - destruct H as [H|H]; [| contradiction]. now destruct cur.
  - destruct (is_linebreak c).
    + destruct s as [|c' s']; [discriminate |]. now destruct (_ && _).
    + apply IH. left. intros Heq. apply append_eq_nil in Heq as [_ Heq]. discriminate.
Qed.

(** Where the claim holds: a baseline whose code is not empty and is the
    code of the selected run gives [No differences found.], provided
    [difflib.unified_diff] yields nothing for two equal lists of lines. *)
Lemma identical_code_no_differences files cache req rid compare_to runs index
    selected base label :
  (forall a from to, unified_diff a a from to = []) ->
  reaches files req rid compare_to runs index ->
  cache !! (rid, compare_to) = None ->
  (compare_to = "previous" /\ runs !! (index + 1) = Some base /\ label = "Previous Run")
  \/ (compare_to = "first" /\ last runs = Some base /\ label = "First Run") ->
  runs !! index = Some selected ->
  code base = code selected -> code base <> "" ->
  GET files cache req
  = (Respond 200 "text/plain" (Text (header rid label +:+ "No differences found.")),
     <[(rid, compare_to) := header rid label +:+ "No differences found."]> cache).
Proof.
  intros Hsame Hreach Hmiss Hbase Hsel Hcode Hne.
  rewrite (do_GET_uncached _ _ _ _ _ _ _ Hreach Hmiss).
  destruct (reaches_memo_selected _ _ _ _ _ _ Hreach) as (sel & Hsel' & Hid).
  rewrite Hsel in Hsel'. injection Hsel' as <-.
  unfold compute_diff, baseline. rewrite (get_item_Some _ _ _ Hsel). cbn [bind].
  assert (Hbody : forall l, diff_body unified_diff (splitlines (code base))
                              (splitlines (code selected)) l = "No differences found.").
  { intros l. rewrite <- Hcode. unfold diff_body.
    pose proof (splitlines_from_nonempty (code base) "" (or_intror Hne)) as Hl.
    fold (splitlines (code base)) in Hl.
    destruct (splitlines (code base)) as [|x xs] eqn:Hx; [contradiction |].
    now rewrite Hsame. }
  destruct Hbase as [(-> & Hb & ->) | (-> & Hb & ->)].
  - pose proof (lookup_lt_Some _ _ _ Hb) as Hlt. apply Nat.ltb_lt in Hlt.
    rewrite Hlt, (get_item_Some _ _ _ Hb). simpl. rewrite Hbody, Hid.
    unfold header. now rewrite !append_assoc.
  - pose proof (lookup_lt_Some _ _ _ Hsel) as Hlt.
    assert (Hpos : Nat.ltb 0 (length runs) = true) by (apply Nat.ltb_lt; lia).
    rewrite Hpos, (last_item_Some _ _ Hb). simpl. rewrite Hbody, Hid.
    unfold header. now rewrite !append_assoc.
Qed.

(** The memo after one request has every entry it had before. *)
Lemma do_GET_keeps_entries files cache req k v :
  cache !! k = Some v -> (GET files cache req).2 !! k = Some v.
Proof.
  intros Hk. unfold do_GET, serve_diff.
  repeat match goal with
    | |- context [if ?b then _ else _] => destruct b
    | |- context [match ?x with _ => _ end] => destruct x eqn:?
    end; simpl; try exact Hk.
  rewrite lookup_insert_ne; [exact Hk | congruence].
Qed.

(** C7: whatever the requests and whatever the files at each of them, an
    entry of the memo is still there, unchanged, after them; and a request
    that reaches the memo where its key has an entry is answered with that
    entry and leaves the memo as it is. *)
Theorem diff_cache_append_only :
  (forall steps cache k v,
     cache !! k = Some v ->
     (serve_all strftime unified_diff HTML_CONTENT steps cache).2 !! k = Some v)
  /\ (forall files cache req rid compare_to runs index diff_text,
        reaches files req rid compare_to runs index ->
        cache !! (rid, compare_to) = Some diff_text ->
        GET files cache req = (Respond 200 "text/plain" (Text diff_text), cache)).
Proof.
  split; [| exact do_GET_cached].
  induction steps as [|[files req] steps IH]; intros cache k v Hk; simpl; [exact Hk |].
  pose proof (do_GET_keeps_entries files cache req k v Hk) as Hstep.
  destruct (GET files cache req) as [resp cache'].
  specialize (IH cache' k v Hstep).
  now destruct (serve_all strftime unified_diff HTML_CONTENT steps cache').
Qed.

(** C8: a [run_id] that no run of the fresh list has is answered with the
    text [Run ID not found.] and status 200; a request without [run_id] is
    answered with the error 400. *)
Theorem unknown_run_and_missing_parameter files cache req :
  path req = "/diff" ->
  (forall rid runs,
     query_first req "run_id" = Some rid -> rid <> "" ->
     parse_logs strftime files = Ok runs ->
     Forall (fun r => run_id r <> rid) runs ->
     GET files cache req = (Respond 200 "text/plain" (Text "Run ID not found."), cache))
  /\ (query_first req "run_id" = None ->
      GET files cache req
      = (SendError 400 "Bad Request: run_id parameter is missing.", cache)).
Proof.
  intros Hpath. unfold do_GET, serve_diff. rewrite Hpath. simpl. split.
  - intros rid runs -> Hne -> Habsent. destruct rid; [contradiction |]. simpl.
    now rewrite (find_index_absent _ _ Habsent).
  - now intros ->.
Qed.

End DiffEngine.

(** ** The theorems at the example directory *)

Lemma example_runs :
  parse_logs (fun _ => "") example_files
  = Ok [ {| run_id := "run_b"; timestamp := ""; mtime := 200;
            code := "print(1)" +:+ NL;
            data := [ {| step := 1; metric_name := "val_loss"; metric_value := 2.1;
                         train_time := 90.0; step_avg := Some 45.0%Q |} ] |};
         {| run_id := "run_a"; timestamp := ""; mtime := 100; code := "";
            data := [ {| step := 1; metric_name := "val_loss"; metric_value := 2.5;
                         train_time := 100.0; step_avg := Some 50.0%Q |} ] |} ].
Proof. vm_compute. reflexivity. Qed.

Lemma unknown_mode_no_comparison_witness :
  do_GET (fun _ => "") (fun _ _ _ _ => []) "" example_files ∅
    (diff_request "run_b" "oldest")
  = (Respond 200 "text/plain"
       (Text (header "run_b" "No Run to Compare" +:+ "No run available to compare.")),
     <[("run_b", "oldest") := header "run_b" "No Run to Compare"
                              +:+ "No run available to compare."]> ∅).
Proof.
  eapply (unknown_mode_no_comparison _ _ _ example_files ∅ _ "run_b" "oldest" _ 0).
  - repeat split; try discriminate; vm_compute; reflexivity.
  - reflexivity.
  - discriminate.
  - discriminate.
Defined.

Lemma empty_baseline_reported_missing_witness :
  do_GET (fun _ => "") (fun _ _ _ _ => []) "" example_files ∅
    (diff_request "run_b" "previous")
  = (Respond 200 "text/plain"
       (Text (header "run_b" "Previous Run" +:+ "No run available to compare.")),
     <[("run_b", "previous") := header "run_b" "Previous Run"
                                +:+ "No run available to compare."]> ∅).
Proof.
  eapply (empty_baseline_reported_missing _ _ _ example_files ∅ _ "run_b" "previous" _ 0
            {| run_id := "run_a"; timestamp := ""; mtime := 100; code := "";
               data := [ {| step := 1; metric_name := "val_loss"; metric_value := 2.5;
                            train_time := 100.0; step_avg := Some 50.0%Q |} ] |}).
  - repeat split; try discriminate; vm_compute; reflexivity.
  - reflexivity.
  - left. repeat split.
  - reflexivity.
Defined.

Lemma diff_cache_append_only_witness :
  (serve_all (fun _ => "") (fun _ _ _ _ => []) ""
     [ (example_files, diff_request "run_b" "previous");
       ([], diff_request "run_b" "first");
       (example_files, bare_diff_request) ]
     {[ ("run_b", "first") := "kept" ]}).2 !! ("run_b", "first") = Some "kept"
  /\ do_GET (fun _ => "") (fun _ _ _ _ => []) "" example_files
       {[ ("run_b", "first") := "kept" ]} (diff_request "run_b" "first")
     = (Respond 200 "text/plain" (Text "kept"), {[ ("run_b", "first") := "kept" ]}).
Proof.
  split.
  - apply (proj1 (diff_cache_append_only (fun _ => "") (fun _ _ _ _ => []) "")).
    reflexivity.
  - eapply (proj2 (diff_cache_append_only (fun _ => "") (fun _ _ _ _ => []) "")
              example_files _ _ "run_b" "first" _ 0).
    + repeat split; try discriminate; vm_compute; reflexivity.
    + reflexivity.
Defined.

Lemma unknown_run_and_missing_parameter_witness :
  do_GET (fun _ => "") (fun _ _ _ _ => []) "" example_files ∅
    (diff_request "run_c" "previous")
  = (Respond 200 "text/plain" (Text "Run ID not found."), ∅)
  /\ do_GET (fun _ => "") (fun _ _ _ _ => []) "" example_files ∅ bare_diff_request
     = (SendError 400 "Bad Request: run_id parameter is missing.", ∅).
Proof.
  split.
  - eapply (proj1 (unknown_run_and_missing_parameter (fun _ => "") (fun _ _ _ _ => []) ""
                     example_files ∅ (diff_request "run_c" "previous") eq_refl)
              "run_c").
    + reflexivity.
    + discriminate.
    + exact example_runs.
    + repeat constructor; discriminate.
  - apply (proj2 (unknown_run_and_missing_parameter (fun _ => "") (fun _ _ _ _ => []) ""
                    example_files ∅ bare_diff_request eq_refl)).
    reflexivity.
Defined.

(** * Further properties *)

(** ** The language of [LOG_LINE_REGEX] *)

(** The pattern matches a line of the grammar whatever follows it: [match]
    is anchored at the start only. *)
Lemma log_line_matches_prefix (s1 s2 name value : string)
    (extras : list (string * string)) (t a suffix : string) :
  class_text is_digit s1 = true -> class_text is_digit s2 = true ->
  class_text is_word name = true -> class_text is_digit_dot value = true ->
  forallb extra_ok extras = true ->
  class_text is_digit_dot t = true -> class_text is_digit_dot_n a = true ->
  re_match LOG_LINE_REGEX (metric_line s1 s2 name value extras t a +:+ suffix)
  = Some [(6, a); (5, t); (4, value); (3, name); (2, s2); (1, s1)].
Proof.
  intros H1 H2 Hname Hvalue Hextras Ht Ha.
  unfold re_match, LOG_LINE_REGEX, metric_line. rewrite !append_assoc.
  cbn [rmatch].
  change (strip_prefix "step:" ("step:" +:+ ?s)) with (Some s). cbn iota beta.
  apply greedy_plus_max; [exact H1 | reflexivity |].
  change (strip_prefix "/" ("/" +:+ ?s)) with (Some s). cbn iota beta.
  apply greedy_plus_max; [exact H2 | reflexivity |].
  change (strip_prefix " " (" " +:+ ?s)) with (Some s). cbn iota beta.
  apply greedy_plus_max; [exact Hname | reflexivity |].
  change (strip_prefix ":" (":" +:+ ?s)) with (Some s). cbn iota beta.
  apply greedy_plus_max; [exact Hvalue | apply extras_text_stops |].
  change ("ms step_avg:" +:+ a +:+ "ms" +:+ suffix)
    with (String "m" ("s step_avg:" +:+ a +:+ "ms" +:+ suffix)).
  apply star_loop_extras.
  - exact Hextras.
  - apply extras_length.
  - now apply class_text_elim in Ht.
  - reflexivity.
  - intros m s' g' Hs. cbn [rmatch].
    destruct s' as [|x s']; [reflexivity |]. cbn [strip_prefix] in *.
    now destruct (Ascii.eqb " " x).
  - cbn [rmatch].
    change (strip_prefix " train_time:" (" train_time:" +:+ ?s)) with (Some s).
    cbn iota beta.
    apply greedy_plus_max; [exact Ht | reflexivity |].
    change (strip_prefix "ms step_avg:" (String "m" ("s step_avg:" +:+ ?s)))
      with (Some s).
    cbn iota beta.
    apply greedy_plus_max; [exact Ha | reflexivity |].
    change (strip_prefix "ms" ("ms" +:+ ?s)) with (Some s). reflexivity.
Qed.

(** The texts a repetition of [extra_token] matches are the texts of lists
    of additional tokens. *)
Lemma star_extra_tokens (r : regex) (m : string) (g g' : groups) :
  matches r m g g' -> r = Star extra_token ->
  exists extras, m = extras_text extras /\ forallb extra_ok extras = true.
Proof.
  induction 1 as [| | | | r0 g0 | r0 m1 m2 g0 g1 g2 Hbody _ _ IH];
    intros Hr; try discriminate.
  - exists []. auto.
  - injection Hr as ->. destruct (IH eq_refl) as (extras & -> & Hok).
    invert_matches.
    match goal with
    | Hw : string_forall is_word ?w = true, Hv : string_forall is_digit_dot ?v = true |- _ =>
        exists ((w, v) :: extras)
    end.
    split.
    + cbn [extras_text]. now rewrite !append_assoc.
    + cbn [forallb]. rewrite Hok, andb_true_r. unfold extra_ok. cbn [fst snd].
      rewrite !class_text_intro; auto.
Qed.

(** A match of [LOG_LINE_REGEX] begins with a line of the grammar. *)
Lemma log_line_match_shape (s : string) (g : groups) :
  re_match LOG_LINE_REGEX s = Some g ->
  exists s1 s2 name value extras t a suffix,
    s = metric_line s1 s2 name value extras t a +:+ suffix
    /\ class_text is_digit s1 = true /\ class_text is_digit s2 = true
    /\ class_text is_word name = true /\ class_text is_digit_dot value = true
    /\ forallb extra_ok extras = true
    /\ class_text is_digit_dot t = true /\ class_text is_digit_dot_n a = true
    /\ g = [(6, a); (5, t); (4, value); (3, name); (2, s2); (1, s1)].
Proof.
  intros H. apply re_match_sound in H as (m & s' & -> & H).
  unfold LOG_LINE_REGEX in H.
  repeat match goal with
    | H : matches (Seq _ _) _ _ _ |- _ => inversion H; subst; clear H
    | H : matches (Group _ _) _ _ _ |- _ => inversion H; subst; clear H
    | H : matches (Plus _) _ _ _ |- _ => inversion H; subst; clear H
    | H : matches (Lit _) _ _ _ |- _ => inversion H; subst; clear H
    end.
  match goal with
  | H : matches (Star _) ?m _ _ |- _ =>
      pose proof (matches_group_free _ _ _ _ H eq_refl) as Hg;
      apply star_extra_tokens in H as (extras & -> & Hextras); [| reflexivity]
  end.
  subst.
  repeat eexists; eauto using class_text_intro.
Qed.

(** X1: [LOG_LINE_REGEX] matches a text exactly when the text begins with a
    line of the grammar (each number a run of digits and dots, the last one
    possibly with [n]), and its groups are then the texts of that line,
    whatever additional tokens and whatever trailing text there are. *)
Theorem log_line_language (s : string) (g : groups) :
  re_match LOG_LINE_REGEX s = Some g <->
  exists s1 s2 name value extras t a suffix,
    s = metric_line s1 s2 name value extras t a +:+ suffix
    /\ class_text is_digit s1 = true /\ class_text is_digit s2 = true
    /\ class_text is_word name = true /\ class_text is_digit_dot value = true
    /\ forallb extra_ok extras = true
    /\ class_text is_digit_dot t = true /\ class_text is_digit_dot_n a = true
    /\ g = [(6, a); (5, t); (4, value); (3, name); (2, s2); (1, s1)].
Proof.
  split; [apply log_line_match_shape |].
  intros (s1 & s2 & name & value & extras & t & a & suffix & -> & H1 & H2
          & Hname & Hvalue & Hextras & Ht & Ha & ->).
  now apply log_line_matches_prefix.
Qed.

(** ** What the parser returns *)





Lemma digit_value_nonneg (c : ascii) : is_digit c = true -> (0 <= digit_value c)%Z.
Proof.
  unfold is_digit, in_range, digit_value. intros H.
  apply andb_prop in H as [H _]. apply N.leb_le in H. lia.
Qed.

Lemma digits_value_nonneg (s : string) :
  forall acc n, digits_value acc s = Some n -> (0 <= acc)%Z -> (0 <= n)%Z.
Proof.
  induction s as [|c s IH]; intros acc n H Hacc; simpl in H.
  - now injection H as <-.
  - destruct (is_digit c) eqn:Hc; [| discriminate].
    apply (IH _ _ H). pose proof (digit_value_nonneg c Hc). lia.
Qed.

Lemma py_int_nonneg (s : string) (n : Z) : py_int s = Ok n -> (0 <= n)%Z.
Proof.
  unfold py_int. destruct s as [|c s]; [discriminate |].
  destruct (Nat.ltb _ _); [discriminate |].
  destruct (digits_value 0 (String c s)) as [m|] eqn:Hm; [| discriminate].
  intros [= <-]. now apply (digits_value_nonneg _ _ _ Hm).
Qed.

Lemma py_float_nonneg (s : string) (q : Q) : py_float s = Ok q -> (0 <= q)%Q.
Proof.
  unfold py_float. destruct (split_dot s) as [ip fp].
  destruct (digits_value 0 _) as [n|] eqn:Hn; [| discriminate].
  destruct (ip +:+ _); [discriminate |]. intros [= <-].
  unfold Qle. simpl. apply (digits_value_nonneg _ _ _) in Hn; lia.
Qed.

(** X3: whatever the line, a sample has a step that is not negative, a
    metric name made of word characters, a value and a time that are not
    negative, and a [step_avg] that is a number and not negative: the
    pattern has no sign, and [None] is never stored. *)
Theorem sample_fields (line : string) (d : MetricSample) :
  parse_metric line = Ok (Some d) ->
  (0 <= step d)%Z /\ class_text is_word (metric_name d) = true
  /\ (0 <= metric_value d)%Q /\ (0 <= train_time d)%Q
  /\ exists q, step_avg d = Some q /\ (0 <= q)%Q.
Proof.
  unfold parse_metric. destruct (re_match LOG_LINE_REGEX (strip line)) as [m|] eqn:Hm;
    [| discriminate].
  apply log_line_groups in Hm
    as (s1 & s2 & name & value & t & a & -> & _ & _ & Hname & _ & _ & Ha).
  cbn [match_group group Nat.eqb].
  rewrite (nan_not_captured a Ha).
  destruct (py_int s1) as [n1|] eqn:H1; [| discriminate].
  destruct (py_int s2); [| discriminate].
  destruct (py_float value) as [qv|] eqn:Hv; [| discriminate].
  destruct (py_float t) as [qt|] eqn:Ht; [| discriminate].
  destruct (py_float a) as [qa|] eqn:Hq; [| discriminate].
  simpl. intros [= <-]. simpl.
  split; [exact (py_int_nonneg _ _ H1) |]. split; [exact Hname |].
  split; [exact (py_float_nonneg _ _ Hv) |]. split; [exact (py_float_nonneg _ _ Ht) |].
  exists qa. split; [reflexivity | exact (py_float_nonneg _ _ Hq)].
Qed.

Lemma sample_fields_witness :
  let d := {| step := 2; metric_name := "val_loss"; metric_value := 2.1;
              train_time := 200.0; step_avg := Some 100.0%Q |} in
  (0 <= step d)%Z /\ class_text is_word (metric_name d) = true
  /\ (0 <= metric_value d)%Q /\ (0 <= train_time d)%Q
  /\ exists q, step_avg d = Some q /\ (0 <= q)%Q.
Proof.
  apply (sample_fields "step:2/10 val_loss:2.1 train_time:200.0ms step_avg:100.0ms").
  vm_compute. reflexivity.
Defined.

Lemma py_int_value_error (x : string) (e : exn) : py_int x = Raise e -> e = ValueError.
Proof.
  unfold py_int. destruct x; [now intros [= <-] |].
  destruct (Nat.ltb _ _); [now intros [= <-] |].
  destruct (digits_value _ _); [discriminate | now intros [= <-]].
Qed.

Lemma py_float_value_error (x : string) (e : exn) :
  py_float x = Raise e -> e = ValueError.
Proof.
  unfold py_float. destruct (split_dot x) as [ip fp].
  destruct (digits_value _ _); [| now intros [= <-]].
  destruct (ip +:+ default "" fp); [now intros [= <-] | discriminate].
Qed.

Lemma parse_metric_value_error (line : string) (e : exn) :
  parse_metric line = Raise e -> e = ValueError.
Proof.
  unfold parse_metric.
  destruct (re_match LOG_LINE_REGEX (strip line)) as [m|]; [| discriminate].
  pose proof (py_int_value_error (match_group m 1)) as H1.
  pose proof (py_int_value_error (match_group m 2)) as H2.
  pose proof (py_float_value_error (match_group m 4)) as H4.
  pose proof (py_float_value_error (match_group m 5)) as H5.
  pose proof (py_float_value_error (match_group m 6)) as H6.
  destruct (py_int (match_group m 1)) as [?|e1]; cbn [bind];
    [| intros [= <-]; now apply H1].
  destruct (py_int (match_group m 2)) as [?|e2]; cbn [bind];
    [| intros [= <-]; now apply H2].
  destruct (py_float (match_group m 4)) as [?|e4]; cbn [bind];
    [| intros [= <-]; now apply H4].
  destruct (py_float (match_group m 5)) as [?|e5]; cbn [bind];
    [| intros [= <-]; now apply H5].
  destruct (String.eqb (match_group m 6) "nan"); cbn [bind]; [discriminate |].
  destruct (py_float (match_group m 6)) as [?|e6]; cbn [bind];
    [discriminate | intros [= <-]; now apply H6].
Qed.


(** ** Sentinel lines and the extraction of any file *)

Lemma str_mul_length (n : nat) : String.length (str_mul "=" n) = n.
Proof. induction n as [|n IH]; simpl; [reflexivity | now rewrite IH]. Qed.

Lemma rstrip_rule (n : nat) : rstrip (str_mul "=" n) = str_mul "=" n.
Proof.
  induction n as [|n IH]; [reflexivity |].
  change (str_mul "=" (S n)) with (String "=" (str_mul "=" n)).
  cbn [rstrip]. rewrite IH. now destruct (str_mul "=" n).
Qed.

Lemma strip_rule (pre post : string) (n : nat) :
  string_forall is_space pre = true -> string_forall is_space post = true ->
  strip (pre +:+ str_mul "=" n +:+ post) = str_mul "=" n.
Proof.
  intros Hpre Hpost. unfold strip. rewrite (lstrip_spaces _ _ Hpre).
  destruct n as [|n].
  - change (str_mul "=" 0 +:+ post) with post.
    assert (Hl : exists k, lstrip post = k /\ string_forall is_space k = true).
    { clear Hpre. induction post as [|c post IH]; simpl in *; [eauto |].
      apply andb_prop in Hpost as [Hc Hpost]. rewrite Hc. auto. }
    destruct Hl as (k & -> & Hk). now apply rstrip_spaces.
  - change (str_mul "=" (S n) +:+ post) with (String "=" (str_mul "=" n +:+ post)).
    cbn [lstrip]. change (is_space "=") with false. cbn iota.
    change (String "=" (str_mul "=" n +:+ post)) with (str_mul "=" (S n) +:+ post).
    now rewrite rstrip_app, (rstrip_spaces _ Hpost), rstrip_rule.
Qed.

(** X5: a line of [n] characters [=] with blanks around it is a sentinel
    exactly when [n] is 100: one [=] more or less makes an ordinary line,
    indentation and the line terminator do not matter. *)
Theorem sentinel_exactly_100 (pre post : string) (n : nat) :
  string_forall is_space pre = true -> string_forall is_space post = true ->
  is_sentinel (pre +:+ str_mul "=" n +:+ post) = Nat.eqb n 100.
Proof.
  intros Hpre Hpost. unfold is_sentinel. rewrite (strip_rule _ _ _ Hpre Hpost).
  destruct (Nat.eqb_spec n 100) as [->|Hne]; [apply String.eqb_refl |].
  apply String.eqb_neq. intros Heq. apply (f_equal String.length) in Heq.
  rewrite !str_mul_length in Heq. contradiction.
Qed.

Lemma sentinel_exactly_100_witness :
  is_sentinel ("  " +:+ str_mul "=" 100 +:+ NL) = true
  /\ is_sentinel ("" +:+ str_mul "=" 99 +:+ NL) = false.
Proof.
  split.
  - apply (sentinel_exactly_100 "  " NL 100); reflexivity.
  - apply (sentinel_exactly_100 "" NL 99); reflexivity.
Defined.

(** The loop fails at the first line of the metrics region that raises. *)
Lemma scan_lines_raises (lines : list string) :
  forall (in_code : bool) (code_lines : list string) (data : list MetricSample),
    let bs := blocks lines in
    let metrics := concat (outside_blocks (if in_code then tail bs else bs)) in
    forallb (fun l => negb (raises l)) metrics = false ->
    scan_lines lines in_code code_lines data = Raise ValueError.
Proof.
  induction lines as [|l rest IH]; intros in_code cl d; cbn zeta.
  - destruct in_code; discriminate.
  - destruct (blocks_cons rest) as (b & bs & Hb).
    simpl. destruct (is_sentinel l) eqn:Hl.
    + intros H. apply IH. rewrite Hb in *. destruct in_code; exact H.
    + specialize (IH in_code). rewrite Hb in *. cbn zeta in IH.
      destruct in_code; simpl in *.
      * intros H. now apply IH.
      * unfold raises at 1.
        destruct (parse_metric l) as [[x|]|e] eqn:Hp; simpl; intros H.
        -- now apply IH.
        -- now apply IH.
        -- now rewrite (parse_metric_value_error l e Hp).
Qed.

(** X6: the extraction of any file, whatever the number of its sentinel
    lines: it fails, with [ValueError], exactly when a line outside the code
    blocks raises; otherwise the code is made of the blocks of even rank and
    the samples come from the others.  A line inside a code block is never
    parsed, so nothing written there can make the extraction fail or add a
    sample. *)
Theorem extract_outcome (lines : list string) :
  extract lines
  = if forallb (fun l => negb (raises l)) (concat (outside_blocks (blocks lines)))
    then Ok (join (concat (outside_blocks (tail (blocks lines)))),
             omap sample_of (concat (outside_blocks (blocks lines))))
    else Raise ValueError.
Proof.
  destruct (forallb _ _) eqn:H.
  - now apply extract_blocks.
  - unfold extract. now rewrite (scan_lines_raises lines false [] [] H).
Qed.

(** ** The runs of a directory *)

Lemma substring_split (s : string) :
  forall n, n <= String.length s ->
    substring 0 n s +:+ substring n (String.length s - n) s = s.
Proof.
  induction s as [|c s IH]; intros n Hn; simpl in Hn.
  - replace n with 0 by lia. reflexivity.
  - destruct n as [|n].
    + simpl. f_equal. specialize (IH 0 (Nat.le_0_l _)).
      rewrite Nat.sub_0_r in IH.
      replace (substring 0 0 s) with "" in IH by now destruct s.
      exact IH.
    + simpl. f_equal. apply IH. lia.
Qed.

(** [filename[:-4] + '.txt'] is the name of a file that ends with [.txt]. *)
Lemma endswith_drop_last (s : string) :
  endswith s ".txt" = true -> drop_last 4 s +:+ ".txt" = s.
Proof.
  unfold endswith, drop_last. intros H. apply andb_prop in H as [Hlen Heq].
  apply Nat.leb_le in Hlen. apply String.eqb_eq in Heq.
  change (String.length ".txt") with 4 in *.
  pose proof (substring_split s (String.length s - 4)) as Hs.
  replace (String.length s - (String.length s - 4)) with 4 in Hs by lia.
  rewrite Heq in Hs. apply Hs. lia.
Qed.

Lemma extract_value_error (lines : list string) (e : exn) :
  extract lines = Raise e -> e = ValueError.
Proof.
  destruct (forallb (fun l => negb (raises l)) (concat (outside_blocks (blocks lines))))
    eqn:H.
  - rewrite (extract_blocks lines H). discriminate.
  - unfold extract. rewrite (scan_lines_raises lines false [] [] H).
    now intros [= <-].
Qed.

Lemma find_index_from_first (runs : list Run) (rid : string) :
  forall k i,
    find_index runs rid k = Some (k + i) <->
    (exists r, runs !! i = Some r /\ run_id r = rid)
    /\ (forall j r', j < i -> runs !! j = Some r' -> run_id r' <> rid).
Proof.
  induction runs as [|r runs IH]; intros k i; simpl.
  - split; [discriminate |]. intros [(r & Hr & _) _]. discriminate.
  - destruct (String.eqb_spec (run_id r) rid) as [Heq|Hne].
    + split.
      * intros [= Hk]. assert (i = 0) as -> by lia. split; [eauto |]. intros; lia.
      * intros [_ Hfirst]. destruct i as [|i]; [f_equal; lia |].
        exfalso. apply (Hfirst 0 r); [lia | reflexivity | exact Heq].
    + destruct i as [|i].
      * split.
        -- intros H. apply find_index_found in H as (_ & _ & _ & Hle). lia.
        -- intros [(r0 & [= <-] & Hid) _]. contradiction.
      * replace (k + S i) with (S k + i) by lia. rewrite IH. split.
        -- intros [Hex Hfirst]. split; [exact Hex |].
           intros [|j] r' Hj Hr'; simpl in Hr'.
           ++ now injection Hr' as <-.
           ++ apply (Hfirst j); [lia | exact Hr'].
        -- intros [Hex Hfirst]. split; [exact Hex |].
           intros j r' Hj Hr'. apply (Hfirst (S j)); [lia | exact Hr'].
Qed.

(** X7: the index the handler looks a run up with is the position of the
    first run that has the requested id: a run of that id stands there, and
    no run before it has the id. *)
Theorem find_index_first (runs : list Run) (rid : string) (i : nat) :
  find_index runs rid 0 = Some i <->
  (exists r, runs !! i = Some r /\ run_id r = rid)
  /\ (forall j r', j < i -> runs !! j = Some r' -> run_id r' <> rid).
Proof.
  pose proof (find_index_from_first runs rid 0 i) as H.
  simpl in H. exact H.
Qed.

Lemma insert_run_filter (q : Q) (r : Run) (rs : list Run) :
  filter (fun x => Qeq_bool (mtime x) q = true) (insert_run r rs)
  = filter (fun x => Qeq_bool (mtime x) q = true) (r :: rs).
Proof.
  induction rs as [|r' rs IH]; simpl; [reflexivity |].
  destruct (Qle_bool (mtime r') (mtime r)) eqn:Hle; [reflexivity |].
  rewrite (filter_cons _ r' (insert_run r rs)), IH, !filter_cons.
  destruct (decide (Qeq_bool (mtime r') q = true)) as [H'|H'];
    destruct (decide (Qeq_bool (mtime r) q = true)) as [H|H]; try reflexivity.
  exfalso. apply Qeq_bool_iff in H, H'.
  assert (Hq : (mtime r' <= mtime r)%Q) by (rewrite H, H'; apply Qle_refl).
  apply Qle_bool_iff in Hq. congruence.
Qed.

(** X8: the sort is stable: the runs that have one and the same
    modification time stand in the sorted list in the order they were
    collected in, that is the order of [os.listdir]. *)
Theorem sort_runs_stable (q : Q) (rs : list Run) :
  filter (fun x => Qeq_bool (mtime x) q = true) (sort_runs rs)
  = filter (fun x => Qeq_bool (mtime x) q = true) rs.
Proof.
  unfold sort_runs. induction rs as [|r rs IH]; simpl; [reflexivity |].
  now rewrite insert_run_filter, !filter_cons, IH.
Qed.

Section Scan.

Variable strftime : Q -> string.
Variable unified_diff : list string -> list string -> string -> string -> list string.
Variable HTML_CONTENT : string.

Abbreviation is_log f := (endswith (filename f) ".txt" = true).

Lemma collect_runs_ok (files : list file) :
  forall acc runs,
    collect_runs strftime files acc = Ok runs ->
    exists rs, runs = (acc ++ rs)%list
      /\ Forall2 (fun f r => is_log f /\ run_of_file strftime f = Ok r)
           (filter (fun f => is_log f) files) rs.
Proof.
  induction files as [|f files IH]; intros acc runs H; simpl in H.
  - injection H as <-. exists []. rewrite app_nil_r. split; [reflexivity | constructor].
  - rewrite filter_cons. destruct (endswith (filename f) ".txt") eqn:Hf.
    + rewrite decide_True by reflexivity.
      destruct (run_of_file strftime f) as [r|e] eqn:Hr; [| discriminate].
      simpl in H. apply IH in H as (rs & -> & Hall).
      exists (r :: rs). rewrite <- app_assoc. split; [reflexivity |].
      now constructor.
    + rewrite decide_False by discriminate. now apply IH.
Qed.

Lemma collect_runs_raises (files : list file) (f : file) (e : exn) :
  f ∈ files -> is_log f -> extract (file_lines f) = Raise e ->
  forall acc, collect_runs strftime files acc = Raise ValueError.
Proof.
  intros Hin Hlog Hraise. induction files as [|f' files IH]; intros acc.
  - now apply elem_of_nil in Hin.
  - simpl. destruct (endswith (filename f') ".txt") eqn:Hf'.
    + destruct (run_of_file strftime f') as [r|e'] eqn:Hr; simpl.
      * apply elem_of_cons in Hin as [->|Hin]; [| now apply IH].
        unfold run_of_file in Hr. now rewrite Hraise in Hr.
      * unfold run_of_file in Hr.
        destruct (extract (file_lines f')) as [x|e''] eqn:Hx; [discriminate |].
        injection Hr as <-. now rewrite (extract_value_error _ _ Hx).
    + apply elem_of_cons in Hin as [->|Hin]; [congruence | now apply IH].
Qed.

(** X9: a scan that succeeds gives one run for each file of the directory
    whose name ends with [.txt], and none for the others: up to the order,
    the runs are those files' runs, each with the file name less [.txt] as
    its id (so that [run_id + '.txt'] is the file name again), the file's
    modification time, and the code and samples extracted from its lines. *)
Theorem parse_logs_runs (files : list file) (runs : list Run) :
  parse_logs strftime files = Ok runs ->
  exists rs, runs ≡ₚ rs
    /\ Forall2 (fun f r =>
                  run_id r +:+ ".txt" = filename f
                  /\ mtime r = file_mtime f
                  /\ timestamp r = strftime (file_mtime f)
                  /\ extract (file_lines f) = Ok (code r, data r))
         (filter (fun f => is_log f) files) rs.
Proof.
  unfold parse_logs.
  destruct (collect_runs strftime files []) as [rs|e] eqn:Hc; [| discriminate].
  simpl. intros [= <-]. apply collect_runs_ok in Hc as (rs' & -> & Hall).
  exists rs'. split; [apply sort_runs_perm |].
  eapply Forall2_impl; [exact Hall |]. intros f r [Hf Hr]. simpl in Hr.
  unfold run_of_file in Hr.
  destruct (extract (file_lines f)) as [[c d]|e]; [| discriminate].
  injection Hr as <-. simpl. auto using endswith_drop_last.
Qed.

Abbreviation GET := (do_GET strftime unified_diff HTML_CONTENT).
Abbreviation reaches := (reaches_memo strftime).



(** X10: the scan is all or nothing: one file ending with [.txt] whose
    extraction raises makes [parse_logs] raise, so that [/data] and every
    [/diff] with a [run_id] fail for all the runs, whatever the memo holds;
    the page at [/] is served all the same. *)
Theorem one_bad_file_fails_the_scan (files : list file) (f : file) (e : exn) :
  f ∈ files -> is_log f -> extract (file_lines f) = Raise e ->
  parse_logs strftime files = Raise ValueError
  /\ forall cache req,
       (path req = "/data" -> GET files cache req = (Uncaught ValueError, cache))
       /\ (path req = "/diff" -> truthy (query_first req "run_id") = true ->
           GET files cache req = (Uncaught ValueError, cache))
       /\ (path req = "/" ->
           GET files cache req = (Respond 200 "text/html" (Text HTML_CONTENT), cache)).
Proof.
  intros Hin Hlog Hraise.
  assert (Hscan : parse_logs strftime files = Raise ValueError).
  { unfold parse_logs. now rewrite (collect_runs_raises files f e Hin Hlog Hraise). }
  split; [exact Hscan |]. intros cache req. unfold do_GET, serve_diff.
  repeat split.
  - intros ->. simpl. now rewrite Hscan.
  - intros -> Hrid. simpl. now rewrite Hrid, Hscan.
  - now intros ->.
Qed.

Lemma header_append (rid label text : string) :
  "Comparing Run " +:+ rid +:+ " to " +:+ label +:+ NL +:+ NL +:+ text
  = header rid label +:+ text.
Proof. unfold header. now rewrite !append_assoc. Qed.

Lemma compute_diff_total (runs : list Run) (index : nat) (compare_to : string)
    (selected : Run) :
  runs !! index = Some selected ->
  exists label text,
    (label = "Previous Run" /\ compare_to = "previous"
     \/ label = "First Run" /\ compare_to = "first"
     \/ label = "No Run to Compare")
    /\ compute_diff unified_diff runs index compare_to
       = Ok (header (run_id selected) label +:+ text).
Proof.
  intros Hsel. unfold compute_diff, baseline.
  rewrite (get_item_Some _ _ _ Hsel). cbn [bind].
  pose proof (lookup_lt_Some _ _ _ Hsel) as Hlt.
  destruct (String.eqb_spec compare_to "previous") as [Hp|_];
    [destruct (Nat.ltb (index + 1) (length runs)) eqn:Hnext |]; cbn [andb].
  - apply Nat.ltb_lt in Hnext.
    destruct (lookup_lt_is_Some_2 runs (index + 1) Hnext) as [prev Hprev].
    rewrite (get_item_Some _ _ _ Hprev). cbn [bind fst snd].
    rewrite header_append. eexists _, _. split; [| reflexivity]. auto.
  - destruct (String.eqb_spec compare_to "first") as [Hf|_]; [congruence |].
    cbn [andb bind fst snd].
    rewrite header_append. eexists _, _. split; [| reflexivity]. auto.
  - destruct (String.eqb_spec compare_to "first") as [Hf|_]; cbn [andb].
    + assert (Hpos : Nat.ltb 0 (length runs) = true) by (apply Nat.ltb_lt; lia).
      rewrite Hpos. destruct (last runs) as [prev|] eqn:Hl.
      * rewrite (last_item_Some _ _ Hl). cbn [bind fst snd].
        rewrite header_append. eexists _, _. split; [| reflexivity]. auto.
      * apply last_None in Hl. subst runs. simpl in Hlt. lia.
    + cbn [bind fst snd].
      rewrite header_append. eexists _, _. split; [| reflexivity]. auto.
Qed.


(** X12: asking for the previous run of the oldest run (the last of the
    list, or the only one) finds no baseline: the answer that is computed
    carries the label [No Run to Compare] and the body
    [No run available to compare.]. *)
Theorem previous_of_oldest (files : list file) (cache : gmap (string * string) string)
    (req : request) (rid : string) (runs : list Run) (index : nat) :
  reaches files req rid "previous" runs index ->
  cache !! (rid, "previous") = None ->
  index + 1 = length runs ->
  GET files cache req
  = (Respond 200 "text/plain"
       (Text (header rid "No Run to Compare" +:+ "No run available to compare.")),
     <[(rid, "previous") := header rid "No Run to Compare"
                            +:+ "No run available to compare."]> cache).
Proof.
  intros Hreach Hmiss Hlast.
  rewrite (do_GET_uncached _ _ _ _ _ _ _ _ _ _ Hreach Hmiss).
  destruct (reaches_memo_selected _ _ _ _ _ _ _ Hreach) as (sel & Hsel & Hid).
  unfold compute_diff, baseline. rewrite (get_item_Some _ _ _ Hsel). cbn [bind].
  rewrite Hlast, Nat.ltb_irrefl. simpl. rewrite Hid.
  unfold header. now rewrite !append_assoc.
Qed.

Lemma parse_logs_sorted (files : list file) (runs : list Run) :
  parse_logs strftime files = Ok runs -> StronglySorted not_older runs.
Proof.
  unfold parse_logs. destruct (collect_runs strftime files []) as [rs|e]; [| discriminate].
  simpl. intros [= <-]. apply sort_runs_sorted.
Qed.

Lemma parse_logs_ids (files : list file) (runs : list Run) :
  parse_logs strftime files = Ok runs ->
  exists rs, runs ≡ₚ rs
    /\ (fun r => run_id r +:+ ".txt") <$> rs
       = filename <$> filter (fun f => is_log f) files.
Proof.
  unfold parse_logs.
  destruct (collect_runs strftime files []) as [rs|e] eqn:Hc; [| discriminate].
  simpl. intros [= <-]. apply collect_runs_ok in Hc as (rs' & -> & Hall).
  exists rs'. split; [apply sort_runs_perm |].
  induction Hall as [|f r fs rs [Hf Hr] _ IH]; [reflexivity |].
  rewrite !fmap_cons. f_equal; [| exact IH].
  unfold run_of_file in Hr.
  destruct (extract (file_lines f)) as [x|e]; [| discriminate].
  injection Hr as <-. simpl. now apply endswith_drop_last.
Qed.

(** X13: the names of the files of a directory are pairwise distinct, so
    the ids of the runs of a scan are too; the handler's lookup then finds
    each run at its own position, and a [run_id] selects one run only. *)
Theorem run_ids_distinct (files : list file) (runs : list Run) :
  NoDup (filename <$> files) ->
  parse_logs strftime files = Ok runs ->
  NoDup (run_id <$> runs)
  /\ forall i r, runs !! i = Some r -> find_index runs (run_id r) 0 = Some i.
Proof.
  intros Hnd Hscan.
  assert (Hids : NoDup (run_id <$> runs)).
  { apply parse_logs_ids in Hscan as (rs & Hperm & Heq). rewrite Hperm.
    apply (NoDup_fmap_1 (fun s => s +:+ ".txt")).
    rewrite <- list_fmap_compose.
    change ((fun s : string => s +:+ ".txt") ∘ run_id)
      with (fun r => run_id r +:+ ".txt").
    rewrite Heq. apply (sublist_NoDup _ (filename <$> files)); [exact Hnd |].
    apply fmap_sublist, sublist_filter. }
  split; [exact Hids |]. intros i r Hr.
  apply (find_index_from_first runs (run_id r) 0 i). split; [eauto |].
  intros j r' Hj Hr' Heq.
  assert (j = i); [| lia].
  apply (NoDup_lookup (run_id <$> runs) j i (run_id r) Hids);
    rewrite list_lookup_fmap; [rewrite Hr' | rewrite Hr]; simpl; congruence.
Qed.

(** X14: under ['previous'] the baseline is the next older run: the run
    that follows the selected one in the list is not newer than it, and no
    run has a modification time strictly between theirs; the answer that is
    computed compares the lines of its code with those of the selected
    run's. *)
Theorem previous_is_next_older (files : list file)
    (cache : gmap (string * string) string) (req : request) (rid : string)
    (runs : list Run) (index : nat) (sel prev : Run) :
  reaches files req rid "previous" runs index ->
  cache !! (rid, "previous") = None ->
  runs !! index = Some sel -> runs !! (index + 1) = Some prev ->
  GET files cache req
  = (Respond 200 "text/plain"
       (Text (header rid "Previous Run"
              +:+ diff_body unified_diff (splitlines (code prev))
                    (splitlines (code sel)) "Previous Run")),
     <[(rid, "previous")
       := header rid "Previous Run"
          +:+ diff_body unified_diff (splitlines (code prev))
                (splitlines (code sel)) "Previous Run"]> cache)
  /\ (mtime prev <= mtime sel)%Q
  /\ Forall (fun r => ~ (mtime prev < mtime r /\ mtime r < mtime sel)%Q) runs.
Proof.
  intros Hreach Hmiss Hsel Hprev.
  pose proof (sorted_lookup runs
                (parse_logs_sorted files runs (proj1 (proj2 (proj2 (proj2 (proj2 Hreach)))))))
    as Hsorted.
  split; [| split].
  - rewrite (do_GET_uncached _ _ _ _ _ _ _ _ _ _ Hreach Hmiss).
    destruct (reaches_memo_selected _ _ _ _ _ _ _ Hreach) as (sel' & Hsel' & Hid).
    rewrite Hsel in Hsel'. injection Hsel' as <-.
    unfold compute_diff, baseline. rewrite (get_item_Some _ _ _ Hsel). cbn [bind].
    pose proof (lookup_lt_Some _ _ _ Hprev) as Hlt. apply Nat.ltb_lt in Hlt.
    rewrite Hlt, (get_item_Some _ _ _ Hprev). simpl. rewrite Hid.
    unfold header. now rewrite !append_assoc.
  - apply (Hsorted index (index + 1) sel prev Hsel Hprev). lia.
  - apply Forall_lookup. intros j r Hr [Hnewer Holder].
    destruct (Nat.le_gt_cases j index) as [Hle|Hgt].
    + assert (Hge : (mtime sel <= mtime r)%Q).
      { destruct (Nat.eq_dec j index) as [->|Hne].
        - rewrite Hsel in Hr. injection Hr as <-. apply Qle_refl.
        - apply (Hsorted j index r sel Hr Hsel). lia. }
      now apply Qlt_not_le in Holder.
    + assert (Hge : (mtime r <= mtime prev)%Q).
      { destruct (Nat.eq_dec j (index + 1)) as [->|Hne].
        - rewrite Hprev in Hr. injection Hr as <-. apply Qle_refl.
        - apply (Hsorted (index + 1) j prev r Hprev Hr). lia. }
      now apply Qlt_not_le in Hnewer.
Qed.


Lemma do_GET_memo_ok (files : list file) (cache : gmap (string * string) string)
    (req : request) :
  memo_ok cache -> memo_ok (GET files cache req).2.
Proof.
  intros Hok. unfold do_GET, serve_diff.
  destruct (String.eqb (path req) "/"); [exact Hok |].
  destruct (String.eqb (path req) "/data").
  { now destruct (parse_logs strftime files). }
  destruct (String.eqb (path req) "/diff"); [| exact Hok].
  destruct (query_first req "run_id") as [rid|]; [| exact Hok].
  destruct rid as [|c rid]; [exact Hok |]. cbn [truthy].
  change (default "" (Some (String c rid))) with (String c rid).
  destruct (parse_logs strftime files) as [runs|e]; [| exact Hok].
  destruct (find_index runs (String c rid) 0) as [index|] eqn:Hi; [| exact Hok].
  destruct (cache !! _) as [hit|]; [exact Hok |].
  apply find_index_found in Hi as (sel & Hsel & Hid & _).
  rewrite Nat.sub_0_r in Hsel.
  destruct (compute_diff_total runs index
              (default "previous" (query_first req "compare_to")) sel Hsel)
    as (label & text & Hlabel & ->).
  cbn [snd]. apply map_Forall_insert_2; [| exact Hok].
  split; [discriminate |]. exists label, text. rewrite <- Hid. auto.
Qed.

Lemma serve_all_keeps_entries (steps : list (list file * request)) :
  forall cache k v,
    cache !! k = Some v ->
    (serve_all strftime unified_diff HTML_CONTENT steps cache).2 !! k = Some v.
Proof.
  induction steps as [|[files req] steps IH]; intros cache k v Hk; simpl; [exact Hk |].
  pose proof (do_GET_keeps_entries strftime unified_diff HTML_CONTENT
                files cache req k v Hk) as Hstep.
  destruct (GET files cache req) as [resp cache'].
  specialize (IH cache' k v Hstep).
  now destruct (serve_all strftime unified_diff HTML_CONTENT steps cache').
Qed.

(** X16: an invariant of the memo.  The empty memo of line 18 has it, and
    whatever the requests and the files at each of them, every entry of the
    memo is then a text that begins with the header of the [run_id] of its
    key; the label [Previous Run] stands only under the mode ['previous']
    and [First Run] only under ['first']; no key has an empty [run_id]. *)
Theorem memo_entries_well_formed :
  memo_ok ∅
  /\ forall steps cache,
       memo_ok cache ->
       memo_ok (serve_all strftime unified_diff HTML_CONTENT steps cache).2.
Proof.
  split; [apply map_Forall_empty |].
  induction steps as [|[files req] steps IH]; intros cache Hok; simpl; [exact Hok |].
  pose proof (do_GET_memo_ok files cache req Hok) as Hstep.
  destruct (GET files cache req) as [resp cache'].
  specialize (IH cache' Hstep).
  now destruct (serve_all strftime unified_diff HTML_CONTENT steps cache').
Qed.

(** X17: a [/diff] request whose run is found is always answered with a
    text, and that text is the answer to every later request for the same
    [run_id] and mode whose run is found, whatever requests came between
    and whatever the files have become: the diff is computed once. *)
Theorem diff_served_again_unchanged (files files' : list file)
    (cache : gmap (string * string) string) (req req' : request)
    (rid compare_to : string) (runs runs' : list Run) (index index' : nat)
    (steps : list (list file * request)) :
  reaches files req rid compare_to runs index ->
  reaches files' req' rid compare_to runs' index' ->
  exists text,
    (GET files cache req).1 = Respond 200 "text/plain" (Text text)
    /\ GET files'
         (serve_all strftime unified_diff HTML_CONTENT steps (GET files cache req).2).2
         req'
       = (Respond 200 "text/plain" (Text text),
          (serve_all strftime unified_diff HTML_CONTENT steps (GET files cache req).2).2).
Proof.
  intros Hreach Hreach'.
  assert (Hfirst : exists text,
             (GET files cache req).1 = Respond 200 "text/plain" (Text text)
             /\ (GET files cache req).2 !! (rid, compare_to) = Some text).
  { destruct (cache !! (rid, compare_to)) as [hit|] eqn:Hc.
    - rewrite (do_GET_cached _ _ _ _ _ _ _ _ _ _ _ Hreach Hc). eauto.
    - rewrite (do_GET_uncached _ _ _ _ _ _ _ _ _ _ Hreach Hc).
      destruct (reaches_memo_selected _ _ _ _ _ _ _ Hreach) as (sel & Hsel & _).
      destruct (compute_diff_total runs index compare_to sel Hsel)
        as (label & text & _ & ->).
      eexists. split; [reflexivity |]. apply lookup_insert_eq. }
  destruct Hfirst as (text & Hresp & Hentry). exists text. split; [exact Hresp |].
  apply (do_GET_cached _ _ _ _ _ _ _ _ _ _ _ Hreach').
  now apply serve_all_keeps_entries.
Qed.

Lemma collect_runs_filter (files : list file) :
  forall acc,
    collect_runs strftime (filter (fun f => is_log f) files) acc
    = collect_runs strftime files acc.
Proof.
  induction files as [|f files IH]; intros acc; [reflexivity |].
  rewrite filter_cons. simpl. destruct (endswith (filename f) ".txt") eqn:Hf.
  - rewrite decide_True by reflexivity. simpl. rewrite Hf.
    destruct (run_of_file strftime f); simpl; [apply IH | reflexivity].
  - rewrite decide_False by discriminate. apply IH.
Qed.

(** X18: a file whose name does not end with [.txt] is never opened: the
    scan of a directory is the scan of its [.txt] files alone, runs and
    failure alike, so that no other file can make [/data] or [/diff]
    fail. *)
Theorem parse_logs_ignores_other_files (files : list file) :
  parse_logs strftime files = parse_logs strftime (filter (fun f => is_log f) files).
Proof. unfold parse_logs. now rewrite collect_runs_filter. Qed.

End Scan.

(** ** The lines the diff compares *)

Lemma join_cons (x : string) (xs : list string) : join (x :: xs) = x +:+ join xs.
Proof. exact (join_app [x] xs). Qed.

Lemma splitlines_from_text (n : nat) :
  forall s cur,
    String.length s <= n ->
    join (splitlines_from cur s) = cur +:+ s
    /\ Forall (fun l => l <> "") (splitlines_from cur s).
Proof.
  induction n as [|n IH]; intros s cur Hn.
  - destruct s; [| simpl in Hn; lia]. simpl. rewrite append_nil_r.
    destruct cur; [split; [reflexivity | constructor] |].
    split; [reflexivity | now repeat constructor].
  - destruct s as [|c s]; simpl.
    + rewrite append_nil_r. destruct cur; [split; [reflexivity | constructor] |].
      split; [reflexivity | now repeat constructor].
    + simpl in Hn. destruct (is_linebreak c).
      * assert (Hline : forall t, cur +:+ String c t <> "").
        { intros t Heq. apply append_eq_nil in Heq as [_ Heq]. discriminate. }
        destruct s as [|c' s'].
        -- split; [reflexivity | repeat constructor; apply Hline].
        -- destruct (_ && _).
           ++ destruct (IH s' "") as [Hj Hne]; [simpl in Hn; lia |].
              split; [| constructor; [apply Hline | exact Hne]].
              rewrite join_cons, Hj, append_assoc. reflexivity.
           ++ destruct (IH (String c' s') "") as [Hj Hne]; [lia |].
              split; [| constructor; [apply Hline | exact Hne]].
              rewrite join_cons, Hj, append_assoc. reflexivity.
      * destruct (IH s (cur +:+ String c "")) as [Hj Hne]; [lia |].
        split; [| exact Hne]. rewrite Hj. apply append_snoc.
Qed.

(** X19: cutting a code into lines loses nothing: the lines that
    [splitlines(keepends=True)] gives to [difflib.unified_diff], put end to
    end, are the code again, whatever line boundaries it holds, and none of
    them is empty. *)
Theorem splitlines_keeps_the_code (r : Run) :
  join (splitlines (code r)) = code r
  /\ Forall (fun l => l <> "") (splitlines (code r)).
Proof.
  unfold splitlines.
  exact (splitlines_from_text (String.length (code r)) (code r) "" (Nat.le_refl _)).
Qed.

Lemma splitlines_from_plain (text : string) :
  string_forall (fun c => negb (is_linebreak c)) text = true ->
  forall cur rest,
    splitlines_from cur (text +:+ NL +:+ rest)
    = (cur +:+ text +:+ NL) :: splitlines_from "" rest.
Proof.
  induction text as [|x text IH]; intros Hplain cur rest.
  - simpl. now destruct rest.
  - simpl in Hplain. apply andb_prop in Hplain as [Hx Hplain].
    apply negb_true_iff in Hx.
    change (String x text +:+ NL +:+ rest) with (String x (text +:+ NL +:+ rest)).
    cbn [splitlines_from]. rewrite Hx, (IH Hplain). f_equal. apply append_snoc.
Qed.

Lemma splitlines_join_plain (ls : list string) :
  Forall plain_line ls -> splitlines (join ls) = ls.
Proof.
  unfold splitlines. induction 1 as [|l ls (text & -> & Hplain) _ IH]; [reflexivity |].
  rewrite join_cons, append_assoc, (splitlines_from_plain text Hplain), IH.
  reflexivity.
Qed.

(** X20: when every line of the code blocks of a file ends with its [\n]
    and holds no other line boundary of [splitlines] (a form feed, a
    carriage return, ...), the lines the diff compares are the lines of the
    code blocks as they stand in the file. *)
Theorem diff_lines_are_file_lines (lines : list string) (c : string)
    (d : list MetricSample) :
  extract lines = Ok (c, d) ->
  Forall plain_line (concat (outside_blocks (tail (blocks lines)))) ->
  splitlines c = concat (outside_blocks (tail (blocks lines))).
Proof.
  intros Hx Hplain.
  destruct (forallb (fun l => negb (raises l)) (concat (outside_blocks (blocks lines))))
    eqn:H.
  - rewrite (extract_blocks lines H) in Hx. injection Hx as <- _.
    now apply splitlines_join_plain.
  - unfold extract in Hx. now rewrite (scan_lines_raises lines false [] [] H) in Hx.
Qed.

(** ** The further properties at the example directory *)

Lemma parse_logs_runs_witness :
  exists rs,
    [ {| run_id := "run_b"; timestamp := ""; mtime := 200;
         code := "print(1)" +:+ NL;
         data := [ {| step := 1; metric_name := "val_loss"; metric_value := 2.1;
                      train_time := 90.0; step_avg := Some 45.0%Q |} ] |};
      {| run_id := "run_a"; timestamp := ""; mtime := 100; code := "";
         data := [ {| step := 1; metric_name := "val_loss"; metric_value := 2.5;
                      train_time := 100.0; step_avg := Some 50.0%Q |} ] |} ] ≡ₚ rs
    /\ Forall2 (fun f r =>
                  run_id r +:+ ".txt" = filename f
                  /\ mtime r = file_mtime f
                  /\ timestamp r = (fun _ : Q => "") (file_mtime f)
                  /\ extract (file_lines f) = Ok (code r, data r))
         (filter (fun f => endswith (filename f) ".txt" = true) example_files) rs.
Proof. exact (parse_logs_runs (fun _ => "") example_files _ example_runs). Defined.

Lemma one_bad_file_fails_the_scan_witness :
  parse_logs (fun _ => "") (example_files ++ [bad_file]) = Raise ValueError
  /\ forall cache req,
       (path req = "/data" ->
        do_GET (fun _ => "") (fun _ _ _ _ => []) "" (example_files ++ [bad_file]) cache req
        = (Uncaught ValueError, cache))
       /\ (path req = "/diff" -> truthy (query_first req "run_id") = true ->
           do_GET (fun _ => "") (fun _ _ _ _ => []) "" (example_files ++ [bad_file])
             cache req
           = (Uncaught ValueError, cache))
       /\ (path req = "/" ->
           do_GET (fun _ => "") (fun _ _ _ _ => []) "" (example_files ++ [bad_file])
             cache req
           = (Respond 200 "text/html" (Text ""), cache)).
Proof.
  apply (one_bad_file_fails_the_scan (fun _ => "") (fun _ _ _ _ => []) ""
           (example_files ++ [bad_file]) bad_file ValueError).
  - apply elem_of_app. right. apply list_elem_of_singleton. reflexivity.
  - reflexivity.
  - vm_compute. reflexivity.
Defined.


Lemma previous_of_oldest_witness :
  do_GET (fun _ => "") (fun _ _ _ _ => []) "" example_files ∅
    (diff_request "run_a" "previous")
  = (Respond 200 "text/plain"
       (Text (header "run_a" "No Run to Compare" +:+ "No run available to compare.")),
     <[("run_a", "previous") := header "run_a" "No Run to Compare"
                                +:+ "No run available to compare."]> ∅).
Proof.
  eapply (previous_of_oldest (fun _ => "") (fun _ _ _ _ => []) "" example_files ∅ _
            "run_a" _ 1).
  - repeat split; try discriminate; vm_compute; reflexivity.
  - reflexivity.
  - reflexivity.
Defined.

Lemma run_ids_distinct_witness :
  NoDup (run_id <$>
           [ {| run_id := "run_b"; timestamp := ""; mtime := 200;
                code := "print(1)" +:+ NL;
                data := [ {| step := 1; metric_name := "val_loss"; metric_value := 2.1;
                             train_time := 90.0; step_avg := Some 45.0%Q |} ] |};
             {| run_id := "run_a"; timestamp := ""; mtime := 100; code := "";
                data := [ {| step := 1; metric_name := "val_loss"; metric_value := 2.5;
                             train_time := 100.0; step_avg := Some 50.0%Q |} ] |} ])
  /\ forall i r,
       [ {| run_id := "run_b"; timestamp := ""; mtime := 200;
            code := "print(1)" +:+ NL;
            data := [ {| step := 1; metric_name := "val_loss"; metric_value := 2.1;
                         train_time := 90.0; step_avg := Some 45.0%Q |} ] |};
         {| run_id := "run_a"; timestamp := ""; mtime := 100; code := "";
            data := [ {| step := 1; metric_name := "val_loss"; metric_value := 2.5;
                         train_time := 100.0; step_avg := Some 50.0%Q |} ] |} ] !! i
       = Some r ->
       find_index
         [ {| run_id := "run_b"; timestamp := ""; mtime := 200;
              code := "print(1)" +:+ NL;
              data := [ {| step := 1; metric_name := "val_loss"; metric_value := 2.1;
                           train_time := 90.0; step_avg := Some 45.0%Q |} ] |};
           {| run_id := "run_a"; timestamp := ""; mtime := 100; code := "";
              data := [ {| step := 1; metric_name := "val_loss"; metric_value := 2.5;
                           train_time := 100.0; step_avg := Some 50.0%Q |} ] |} ]
         (run_id r) 0
       = Some i.
Proof.
  apply (run_ids_distinct (fun _ => "") example_files _).
  - apply (bool_decide_unpack _). vm_compute. reflexivity.
  - exact example_runs.
Defined.

Lemma previous_is_next_older_witness :
  let run_b := {| run_id := "run_b"; timestamp := ""; mtime := 200;
                  code := "print(1)" +:+ NL;
                  data := [ {| step := 1; metric_name := "val_loss";
                               metric_value := 2.1; train_time := 90.0;
                               step_avg := Some 45.0%Q |} ] |} in
  let run_a := {| run_id := "run_a"; timestamp := ""; mtime := 100; code := "";
                  data := [ {| step := 1; metric_name := "val_loss";
                               metric_value := 2.5; train_time := 100.0;
                               step_avg := Some 50.0%Q |} ] |} in
  do_GET (fun _ => "") (fun _ _ _ _ => []) "" example_files ∅
    (diff_request "run_b" "previous")
  = (Respond 200 "text/plain"
       (Text (header "run_b" "Previous Run"
              +:+ diff_body (fun _ _ _ _ => []) (splitlines (code run_a))
                    (splitlines (code run_b)) "Previous Run")),
     <[("run_b", "previous")
       := header "run_b" "Previous Run"
          +:+ diff_body (fun _ _ _ _ => []) (splitlines (code run_a))
                (splitlines (code run_b)) "Previous Run"]> ∅)
  /\ (mtime run_a <= mtime run_b)%Q
  /\ Forall (fun r => ~ (mtime run_a < mtime r /\ mtime r < mtime run_b)%Q)
       [run_b; run_a].
Proof.
  intros run_b run_a.
  apply (previous_is_next_older (fun _ => "") (fun _ _ _ _ => []) "" example_files ∅
           (diff_request "run_b" "previous") "run_b" [run_b; run_a] 0 run_b run_a).
  - repeat split; try discriminate; vm_compute; reflexivity.
  - reflexivity.
  - reflexivity.
  - reflexivity.
Defined.

Lemma memo_entries_well_formed_witness :
  memo_ok
    (serve_all (fun _ => "") (fun _ _ _ _ => []) ""
       [ (example_files, diff_request "run_b" "previous");
         (example_files, diff_request "run_a" "first");
         (example_files, diff_request "run_a" "oldest");
         (example_files, data_request) ] ∅).2.
Proof.
  apply (proj2 (memo_entries_well_formed (fun _ => "") (fun _ _ _ _ => []) "")).
  apply (proj1 (memo_entries_well_formed (fun _ => "") (fun _ _ _ _ => []) "")).
Defined.

Lemma diff_served_again_unchanged_witness :
  let later_files :=
    [ {| filename := "run_b.txt"; file_mtime := 400;
         file_lines := [ sentinel_line; "print(2)" +:+ NL; sentinel_line ] |} ] in
  exists text,
    (do_GET (fun _ => "") (fun _ _ _ _ => []) "" example_files ∅
       (diff_request "run_b" "first")).1
    = Respond 200 "text/plain" (Text text)
    /\ do_GET (fun _ => "") (fun _ _ _ _ => []) "" later_files
         (serve_all (fun _ => "") (fun _ _ _ _ => []) ""
            [ (example_files, data_request) ]
            (do_GET (fun _ => "") (fun _ _ _ _ => []) "" example_files ∅
               (diff_request "run_b" "first")).2).2
         (diff_request "run_b" "first")
       = (Respond 200 "text/plain" (Text text),
          (serve_all (fun _ => "") (fun _ _ _ _ => []) ""
             [ (example_files, data_request) ]
             (do_GET (fun _ => "") (fun _ _ _ _ => []) "" example_files ∅
                (diff_request "run_b" "first")).2).2).
Proof.
  intros later_files.
  eapply (diff_served_again_unchanged (fun _ => "") (fun _ _ _ _ => []) ""
            example_files later_files ∅ _ _ "run_b" "first" _ _ 0 0).
  - repeat split; try discriminate; vm_compute; reflexivity.
  - repeat split; try discriminate; vm_compute; reflexivity.
Defined.

Lemma diff_lines_are_file_lines_witness :
  let lines :=
    [ sentinel_line; "import torch" +:+ NL; "print(1)" +:+ NL; sentinel_line;
      "step:1/10 val_loss:2.1 train_time:90.0ms step_avg:45.0ms" +:+ NL ] in
  splitlines ("import torch" +:+ NL +:+ "print(1)" +:+ NL)
  = concat (outside_blocks (tail (blocks lines))).
Proof.
  intros lines.
  apply (diff_lines_are_file_lines lines _
           [ {| step := 1; metric_name := "val_loss"; metric_value := 2.1;
                train_time := 90.0; step_avg := Some 45.0%Q |} ]).
  - vm_compute. reflexivity.
  - vm_compute. repeat constructor.
    + exists "import torch". split; reflexivity.
    + exists "print(1)". split; reflexivity.
Defined.
